(** * pyvcpkg: triplets, package listing, dependency actions and copy fix-ups

    A shallow embedding of [pyvcpkg.py] and [deps.py].

    Python [str] values are modelled as [string] (a character is an [ascii],
    code points below 256), Python [int] as [Z], a raised exception as the
    [Raise] case of [result], the file system as a finite map from paths to
    nodes, and child processes as a log of the command lines that were run. *)

From Stdlib Require Import ZArith String Ascii List Bool Lia.
From stdpp Require Import base option gmap strings list fin_maps.
Import ListNotations.

Local Open Scope string_scope.
Local Open Scope list_scope.

(** ** Exceptions and results *)

Module Py.

(** The exception classes that the modelled code can raise. *)
Inductive exn : Type :=
| IndexError
| ValueError
| KeyError
| AttributeError
| FileNotFoundError
| FileExistsError
| NotADirectoryError
| PermissionError
| ShutilError
| DistutilsFileError
| CalledProcessError
| SystemExit (code : Z).

Inductive result (A : Type) : Type :=
| Ok (a : A)
| Raise (e : exn).

Arguments Ok {A} a.
Arguments Raise {A} e.

Definition bind {A B : Type} (r : result A) (k : A -> result B) : result B :=
  match r with
  | Ok a => k a
  | Raise e => Raise e
  end.

(** [try: body except E: handler] for one exception class [E]. *)
Definition try_except {A : Type} (body : result A) (catches : exn -> bool)
    (handler : result A) : result A :=
  match body with
  | Ok a => Ok a
  | Raise e => if catches e then handler else Raise e
  end.

Definition is_ValueError (e : exn) : bool :=
  match e with ValueError => true | _ => false end.

Definition is_KeyError (e : exn) : bool :=
  match e with KeyError => true | _ => false end.

Definition is_FileNotFoundError (e : exn) : bool :=
  match e with FileNotFoundError => true | _ => false end.

End Py.

Import Py.

#[global] Instance result_ret : MRet result := @Ok.
#[global] Instance result_bind : MBind result :=
  fun A B k r => Py.bind r k.

(** ** Python string operations used by the code *)

Module Str.

Definition dash : ascii := "-"%char.
Definition colon : ascii := ":"%char.

(** [s.split(sep)] for a separator of one character: never empty, one more
    element than there are separators in [s]. *)
Fixpoint split_char (sep : ascii) (s : string) : list string :=
  match s with
  | EmptyString => [EmptyString]
  | String c rest =>
      if Ascii.eqb c sep then EmptyString :: split_char sep rest
      else match split_char sep rest with
           | [] => [String c EmptyString]
           | w :: ws => String c w :: ws
           end
  end.

(** [s.split('\r\n')]. *)
Fixpoint split_crlf (s : string) : list string :=
  match s with
  | EmptyString => [EmptyString]
  | String c rest =>
      match rest with
      | String c' rest' =>
          if Ascii.eqb c "013"%char && Ascii.eqb c' "010"%char
          then EmptyString :: split_crlf rest'
          else match split_crlf rest with
               | [] => [String c EmptyString]
               | w :: ws => String c w :: ws
               end
      | EmptyString => [String c EmptyString]
      end
  end.

(** [sep.join(l)] for a separator of one character. *)
Fixpoint join_char (sep : ascii) (l : list string) : string :=
  match l with
  | [] => EmptyString
  | [w] => w
  | w :: ws => w +:+ String sep (join_char sep ws)
  end.

(** [c.isspace()] on code points below 256. *)
Definition is_space (c : ascii) : bool :=
  let n := nat_of_ascii c in
  (((9 <=? n) && (n <=? 13)) || ((28 <=? n) && (n <=? 32))
   || (n =? 133) || (n =? 160))%nat.

(** Drop the leading white space. *)
Fixpoint skip_ws (s : string) : string :=
  match s with
  | EmptyString => EmptyString
  | String c rest => if is_space c then skip_ws rest else s
  end.

(** The longest prefix without white space, and what follows it. *)
Fixpoint take_word (s : string) : string * string :=
  match s with
  | EmptyString => (EmptyString, EmptyString)
  | String c rest =>
      if is_space c then (EmptyString, s)
      else let '(w, r) := take_word rest in (String c w, r)
  end.

(** [s.split(maxsplit=2)]: split on runs of white space, at most two
    splits; the third element is the remainder after the second run, with
    its own trailing white space kept. *)
Definition split_ws_max2 (s : string) : list string :=
  let s0 := skip_ws s in
  if String.eqb s0 EmptyString then []
  else
    let '(w1, r1) := take_word s0 in
    let s1 := skip_ws r1 in
    if String.eqb s1 EmptyString then [w1]
    else
      let '(w2, r2) := take_word s1 in
      let s2 := skip_ws r2 in
      if String.eqb s2 EmptyString then [w1; w2]
      else [w1; w2; s2].

(** No character of [s] is [c]. *)
Fixpoint lacks (c : ascii) (s : string) : bool :=
  match s with
  | EmptyString => true
  | String c' rest => negb (Ascii.eqb c' c) && lacks c rest
  end.

Fixpoint all_space (s : string) : bool :=
  match s with
  | EmptyString => true
  | String c rest => is_space c && all_space rest
  end.

Fixpoint no_space (s : string) : bool :=
  match s with
  | EmptyString => true
  | String c rest => negb (is_space c) && no_space rest
  end.

(** The first character of [s] is white space. *)
Definition starts_space (s : string) : bool :=
  match s with
  | EmptyString => false
  | String c _ => is_space c
  end.

End Str.

(** ** The triplet *)

(** [class Triplet]: three string fields. *)
Record Triplet : Type := mkTriplet {
  arch : string;
  system : string;
  linkage : string
}.

(** The values that can reach [other] in [Triplet.__eq__]. *)
Inductive object : Type :=
| OTriplet (t : Triplet)
| OStr (s : string)
| ONone.

Module TripletM.

(** [Triplet.from_string]: [triplet_list[1]] and [triplet_list[2]] raise
    [IndexError] when the list is too short. *)
Definition from_string (triplet_string : string) : result Triplet :=
  let triplet_list := Str.split_char Str.dash triplet_string in
  let triplet_list :=
    if (length triplet_list =? 2)%nat then triplet_list ++ ["dynamic"]
    else triplet_list in
  match triplet_list !! 0%nat, triplet_list !! 1%nat, triplet_list !! 2%nat with
  | Some a, Some s, Some l => Ok (mkTriplet a s l)
  | _, _, _ => Raise IndexError
  end.

(** [Triplet.__eq__]. *)
Definition eq (self : Triplet) (other : object) : bool :=
  match other with
  | OTriplet other =>
      String.eqb (arch self) (arch other)
      && String.eqb (system self) (arch other)
      && String.eqb (linkage self) (linkage other)
  | _ => false
  end.

(** [Triplet.__str__]. *)
Definition to_string (self : Triplet) : string :=
  if String.eqb (linkage self) "static"
  then arch self +:+ "-" +:+ system self +:+ "-" +:+ linkage self
  else arch self +:+ "-" +:+ system self.

(** [str(Triplet.from_string(x))]. *)
Definition canonical (x : string) : result string :=
  t ← from_string x; Ok (to_string t).

(** The three fields, in the order of [__init__]. *)
Definition fields (self : Triplet) : list string :=
  [arch self; system self; linkage self].

Section Hash.

(** [hash] on [str] is seeded per process: it is a parameter. *)
Variable hash_str : string -> Z.

(** [Triplet.__hash__]. *)
Definition hash_method (self : Triplet) : Z :=
  Z.lxor (Z.lxor (hash_str (arch self)) (hash_str (system self)))
         (hash_str (linkage self)).

(** The builtin [hash(t)]: the method's value, with -1 replaced by -2. *)
Definition hash (self : Triplet) : Z :=
  let h := hash_method self in
  if (h =? -1)%Z then (-2)%Z else h.

End Hash.

End TripletM.

Definition X86_WINDOWS_DYNAMIC := mkTriplet "x86" "windows" "dynamic".
Definition X86_WINDOWS_STATIC := mkTriplet "x86" "windows" "static".
Definition X64_WINDOWS_DYNAMIC := mkTriplet "x64" "windows" "dynamic".
Definition X64_WINDOWS_STATIC := mkTriplet "x64" "windows" "static".

(** The triplet loop of [main]: architectures outermost, linkages
    innermost. *)
Definition make_triplets (archs systems linkages : list string) : list Triplet :=
  a ← archs; s ← systems; l ← linkages; [mkTriplet a s l].

(** ** [VcPkg.list_installed] *)

Module Installed.

(** An element of the per-name set: the tuple [(triplet, version)]. *)
Definition entry : Type := Triplet * string.

Section SetOfEntries.

(** [hash] on [str] and the combination of two element hashes into the
    hash of a 2-tuple are the interpreter's. *)
Variable hash_str : string -> Z.
Variable hash_tuple : Z -> Z -> Z.

Definition entry_hash (e : entry) : Z :=
  hash_tuple (TripletM.hash hash_str e.1) (hash_str e.2).

(** Tuple comparison as the set does it: the stored element is on the left.
    Every triplet is a fresh object, so no two are identical and
    [Triplet.__eq__] decides. *)
Definition entry_eq (stored new : entry) : bool :=
  TripletM.eq stored.1 (OTriplet new.1) && String.eqb stored.2 new.2.

(** [set.add]: a set is the list of its elements in insertion order; an
    element is already there when a stored one has its hash and compares
    equal. *)
Definition set_add (s : list entry) (e : entry) : list entry :=
  if existsb (fun x => (entry_hash x =? entry_hash e)%Z && entry_eq x e) s
  then s else s ++ [e].

(** The three statements of the [try] body that can raise. *)
Definition parse_line (line : string) : result (string * Triplet * string) :=
  match Str.split_ws_max2 line with
  | [name_triplet; version; _] =>
      match Str.split_char Str.colon name_triplet with
      | [name; triplet_string] =>
          triplet ← TripletM.from_string triplet_string;
          Ok (name, triplet, version)
      | _ => Raise ValueError
      end
  | _ => Raise ValueError
  end.

(** One iteration of the loop over the lines: [except ValueError: pass]. *)
Definition add_line (name_variations : gmap string (list entry)) (line : string)
    : result (gmap string (list entry)) :=
  try_except
    ('(name, triplet, version) ← parse_line line;
     Ok (<[name := set_add (default [] (name_variations !! name))
                           (triplet, version)]> name_variations))
    is_ValueError
    (Ok name_variations).

Fixpoint add_lines (name_variations : gmap string (list entry))
    (lines : list string) : result (gmap string (list entry)) :=
  match lines with
  | [] => Ok name_variations
  | line :: lines =>
      name_variations ← add_line name_variations line;
      add_lines name_variations lines
  end.

(** [list_installed], from the decoded standard output of [vcpkg list]. *)
Definition list_installed (output : string) : result (gmap string (list entry)) :=
  add_lines ∅ (Str.split_crlf output).

End SetOfEntries.

(** The layout of the fields of a line, said without the parser: optional
    leading white space, a first field with exactly one colon, white
    space, a second field, white space, and a remainder that does not
    start with white space. This is what the two unpackings of
    [parse_line] accept and no more: the part after the colon need not be
    a triplet (it may be empty or have no dash) and the part before it may
    be empty; [Plan.listing_line] is the line with a name and a triplet. *)
Definition matches_shape (line : string) : Prop :=
  ∃ lead name trip ws1 version ws2 description : string,
    line = lead +:+ name +:+ ":" +:+ trip +:+ ws1 +:+ version +:+ ws2 +:+ description
    ∧ Str.all_space lead = true
    ∧ Str.no_space name = true ∧ Str.lacks Str.colon name = true
    ∧ Str.no_space trip = true ∧ Str.lacks Str.colon trip = true
    ∧ ws1 ≠ "" ∧ Str.all_space ws1 = true
    ∧ version ≠ "" ∧ Str.no_space version = true
    ∧ ws2 ≠ "" ∧ Str.all_space ws2 = true
    ∧ description ≠ "" ∧ Str.starts_space description = false.

(** Whether the two unpackings of [parse_line] go through. *)
Definition unpacks (line : string) : bool :=
  match Str.split_ws_max2 line with
  | [name_triplet; _; _] =>
      match Str.split_char Str.colon name_triplet with
      | [_; _] => true
      | _ => false
      end
  | _ => false
  end.

End Installed.

(** ** Command-line options *)

Module Cli.

(** What argparse hands to an action: a string, or a list of strings when
    the option has [nargs]. *)
Inductive argval : Type :=
| AStr (s : string)
| AList (l : list string).

Definition comma : ascii := ","%char.

(** [CommaSplitter.__call__]: the value stored in the namespace, or the
    exit of [parser.error]. *)
Definition CommaSplitter_call (choices : list string) (values : argval)
    : result argval :=
  match choices with
  | _ :: _ =>
      match values with
      | AStr s =>
          let values := Str.split_char comma s in
          if forallb (fun value => existsb (String.eqb value) choices) values
          then Ok (AList values)
          else Raise (SystemExit 2)
      | AList _ => Raise AttributeError
      end
  | [] => Ok values
  end.

(** Truth value of a string or list. *)
Definition truthy (v : argval) : bool :=
  match v with
  | AStr s => negb (String.eqb s "")
  | AList l => negb (bool_decide (l = []))
  end.

(** [for x in v]. *)
Definition iter (v : argval) : list string :=
  match v with
  | AStr s => (fun c => String c EmptyString) <$> list_ascii_of_string s
  | AList l => l
  end.

(** [DEPENDENCIES] of deps.py. *)
Definition DEPENDENCIES : list string :=
  ["bullet3"; "glm"; "ffmpeg"; "openal-soft"; "sdl2"].

Definition default_arch : list string := ["x86"; "x64"].
Definition default_system : list string := ["windows"].
Definition default_linkage : list string := ["dynamic"; "static"].

(** The options as given on the command line; [None] is an option that
    was not given. *)
Record argv : Type := mkArgv {
  opt_w : option string;
  opt_a : option string;
  opt_s : option string;
  opt_l : option string
}.

(** [-w]: [nargs=1] and no [choices]; the action receives the list of the
    one argument. *)
Definition parse_what (o : option string) : result argval :=
  match o with
  | None => Ok (AList [])
  | Some s => CommaSplitter_call [] (AList [s])
  end.

(** [-a], [-s], [-l]: [choices] and no [nargs]. *)
Definition parse_choice (default choices : list string) (o : option string)
    : result argval :=
  match o with
  | None => Ok (AList default)
  | Some s => CommaSplitter_call choices (AStr s)
  end.

Record options : Type := mkOptions {
  what : argval;
  o_arch : argval;
  o_system : argval;
  o_linkage : argval
}.

Definition parse_args (a : argv) : result options :=
  w ← parse_what (opt_w a);
  ar ← parse_choice default_arch ["arm"; "x64"; "x86"] (opt_a a);
  sy ← parse_choice default_system ["windows"; "uwp"] (opt_s a);
  li ← parse_choice default_linkage ["dynamic"; "static"] (opt_l a);
  Ok (mkOptions w ar sy li).

(** [if not options.what: options.what = DEPENDENCIES]. *)
Definition resolve_what (w : argval) : argval :=
  if truthy w then w else AList DEPENDENCIES.

Definition triplets_of (o : options) : list Triplet :=
  make_triplets (iter (o_arch o)) (iter (o_system o)) (iter (o_linkage o)).

End Cli.

(** ** The file system *)

Module Fs.

(** A path is the list of its components below the root; [p / name] is
    [p ++ [name]]. *)
Abbreviation path := (list string).

Inductive node : Type :=
| File (content : string)
| Dir.

#[global] Instance node_eq_dec : EqDecision node.
Proof. solve_decision. Defined.

(** The file system maps each existing path to its node. *)
Abbreviation fs := (gmap (list string) node).

Definition parent (p : path) : path := removelast p.

Definition basename (p : path) : string := default "" (last p).

(** [p] lies strictly below [root]. *)
Definition below (root : path) (p : path) : Prop :=
  root `prefix_of` p ∧ p ≠ root.

#[global] Instance below_dec root p : Decision (below root p).
Proof. unfold below. apply _. Defined.

(** The entries strictly below [root]. *)
Definition subtree (f : fs) (root : path) : fs :=
  filter (fun kv => below root kv.1) f.

(** The same path relative to [dst] instead of [src]. *)
Definition rebase (src dst : path) (p : path) : path :=
  dst ++ drop (length src) p.

(** [Path.unlink()]. *)
Definition unlink (f : fs) (p : path) : result fs :=
  match f !! p with
  | Some (File _) => Ok (delete p f)
  | Some Dir => Raise PermissionError
  | None => Raise FileNotFoundError
  end.

(** [Path.mkdir(exist_ok=True)]. *)
Definition mkdir_exist_ok (f : fs) (p : path) : result fs :=
  match f !! p with
  | Some Dir => Ok f
  | Some (File _) => Raise FileExistsError
  | None =>
      match f !! parent p with
      | Some Dir => Ok (<[p := Dir]> f)
      | Some (File _) => Raise NotADirectoryError
      | None => Raise FileNotFoundError
      end
  end.

(** [distutils.dir_util.mkpath]: the directory and its missing ancestors. *)
Fixpoint mkpath_from (f : fs) (base rest : path) : result fs :=
  match f !! base with
  | Some (File _) => Raise DistutilsFileError
  | _ =>
      let f := <[base := Dir]> f in
      match rest with
      | [] => Ok f
      | name :: rest => mkpath_from f (base ++ [name]) rest
      end
  end.

Definition mkpath (f : fs) (p : path) : result fs := mkpath_from f [] p.

(** [distutils.dir_util.copy_tree(src, dst)]: fails unless [src] is a
    directory; creates [dst]; every entry below [src] is written at the
    same relative path below [dst], over what was there. (Where an entry
    and what it lands on are of different kinds, distutils fails or nests
    the file; here the entry of the source stands.) *)
Definition copy_tree (f : fs) (src dst : path) : result fs :=
  match f !! src with
  | Some Dir =>
      f1 ← mkpath f dst;
      Ok ((kmap (rebase src dst) (subtree f src) : fs) ∪ f1)
  | _ => Raise DistutilsFileError
  end.

(** The second half of [shutil.move]: [os.rename(src, real_dst)] and, when
    that fails, the copy and delete that stand in for it. *)
Definition rename (f : fs) (src real_dst : path) : result fs :=
  match f !! src with
  | None => Raise FileNotFoundError
  | Some (File c) =>
      match f !! parent real_dst with
      | Some Dir => Ok (<[real_dst := File c]> (delete src f))
      | Some (File _) => Raise NotADirectoryError
      | None => Raise FileNotFoundError
      end
  | Some Dir =>
      if bool_decide (src `prefix_of` real_dst) then
        if bool_decide (src = real_dst) then Ok f else Raise ShutilError
      else
        match f !! real_dst with
        | Some _ => Raise FileExistsError
        | None =>
            match f !! parent real_dst with
            | Some Dir =>
                Ok (<[real_dst := Dir]>
                      ((kmap (rebase src real_dst) (subtree f src) : fs)
                       ∪ filter (fun kv => ¬ src `prefix_of` kv.1) f))
            | Some (File _) => Raise NotADirectoryError
            | None => Raise FileNotFoundError
            end
        end
  end.

(** [shutil.move(src, dst)]: into [dst] when [dst] is a directory, onto
    [dst] otherwise. *)
Definition shutil_move (f : fs) (src dst : path) : result fs :=
  match f !! dst with
  | Some Dir =>
      if bool_decide (src = dst) then Ok f
      else
        let real_dst := dst ++ [basename src] in
        match f !! real_dst with
        | Some _ => Raise ShutilError
        | None => rename f src real_dst
        end
  | _ => rename f src dst
  end.

(** [shutil.rmtree(p, ignore_errors=True)]: nothing happens unless [p] is
    a directory. *)
Definition rmtree_ignore_errors (f : fs) (p : path) : fs :=
  match f !! p with
  | Some Dir => filter (fun kv => ¬ p `prefix_of` kv.1) f
  | _ => f
  end.

(** Every entry but the root lies in a directory. *)
Definition wf (f : fs) : Prop :=
  map_Forall (fun p _ => p = [] ∨ f !! parent p = Some Dir) f.

(** A file system from the list of its entries. *)
Definition of_entries (l : list (path * node)) : fs := list_to_map l.

End Fs.

Import Fs.

(** ** deps.py: the copy fix-ups *)

Module Deps.

(** A [for] loop over names whose body can raise. *)
Fixpoint for_each (body : fs → string → result fs) (f : fs)
    (names : list string) : result fs :=
  match names with
  | [] => Ok f
  | name :: names => f ← body f name; for_each body f names
  end.

(** The body of both loops: move [lib_name + suffix] to [lib_name + '.lib'],
    [except FileNotFoundError: pass]. *)
Definition move_lib (lib_deb_path : path) (suffix : string) (f : fs)
    (lib_name : string) : result fs :=
  let orig_lib := lib_deb_path ++ [lib_name +:+ suffix] in
  let targ_lib := lib_deb_path ++ [lib_name +:+ ".lib"] in
  try_except (shutil_move f orig_lib targ_lib) is_FileNotFoundError (Ok f).

Definition bullet3_lib_names : list string :=
  ["BulletCollision"; "BulletDynamics"; "BulletSoftBody"; "LinearMath"].

Definition fix_bullet3 (f : fs) (p : path) : result fs :=
  let lib_deb_path := p ++ ["debug"] ++ ["lib"] in
  for_each (move_lib lib_deb_path "_Debug.lib") f bullet3_lib_names.

Definition SDL2_lib_names : list string := ["SDL2"; "SDL2main"].

Definition fix_SDL2 (f : fs) (p : path) : result fs :=
  let lib_deb_path := p ++ ["debug"] ++ ["lib"] in
  for_each (move_lib lib_deb_path "d.lib") f SDL2_lib_names.

(** What a fix-up is meant to do for one library, in one step: the file
    [lib_name + suffix], when it is there, becomes [lib_name + '.lib'];
    nothing happens otherwise. *)
Definition rename_if_present (lib_deb_path : path) (suffix : string) (f : fs)
    (lib_name : string) : fs :=
  let orig_lib := lib_deb_path ++ [lib_name +:+ suffix] in
  let targ_lib := lib_deb_path ++ [lib_name +:+ ".lib"] in
  match f !! orig_lib with
  | Some (File c) => <[targ_lib := File c]> (delete orig_lib f)
  | _ => f
  end.

(** What one library needs for its move to go as meant: neither path is
    a directory, and the file that is there lies in a directory. *)
Definition movable (lib_deb_path : path) (suffix : string) (f : fs)
    (lib_name : string) : Prop :=
  f !! (lib_deb_path ++ [lib_name +:+ ".lib"]) ≠ Some Dir
  ∧ f !! (lib_deb_path ++ [lib_name +:+ suffix]) ≠ Some Dir
  ∧ (is_Some (f !! (lib_deb_path ++ [lib_name +:+ suffix])) →
     f !! lib_deb_path = Some Dir).

(** The file names that a fix-up reads or writes. *)
Definition touched (suffix : string) (names : list string) : list string :=
  ((fun n => n +:+ suffix) <$> names) ++ ((fun n => n +:+ ".lib") <$> names).

(** [COPY_FIXES[dep]]. *)
Definition COPY_FIXES (dep : string) : result (fs → path → result fs) :=
  if String.eqb dep "bullet3" then Ok fix_bullet3
  else if String.eqb dep "sdl2" then Ok fix_SDL2
  else Raise KeyError.

End Deps.

(** ** The dependency actions of [main] *)

Module Main.

(** [str(path)], with the separator of the platform the tool runs on. *)
Definition path_str (p : path) : string := Str.join_char "\"%char p.

Section Process.

(** The exit status of a child process, by command line. *)
Variable exit_code : list string → Z.

(** [subprocess.run(cmd, check=True)]: the command lines run so far. *)
Definition subprocess_run (cmd : list string) (log : list (list string))
    : result (list (list string)) :=
  if (exit_code cmd =? 0)%Z then Ok (log ++ [cmd])
  else Raise CalledProcessError.

Variable vcpkg_path : path.

Definition exe_path : path := vcpkg_path ++ ["vcpkg.exe"].

Definition install_library (lib : string) (triplet : Triplet)
    (log : list (list string)) : result (list (list string)) :=
  subprocess_run
    [path_str exe_path; "install"; lib; "--triplet"; TripletM.to_string triplet]
    log.

Definition remove_library (lib : string) (triplet : Triplet)
    (log : list (list string)) : result (list (list string)) :=
  subprocess_run
    [path_str exe_path; "remove"; lib; "--triplet"; TripletM.to_string triplet]
    log.

(** The two nested loops of an action that runs one command per triplet and
    dependency. *)
Fixpoint each_dep (run : string → Triplet → list (list string) → result (list (list string)))
    (triplet : Triplet) (deps : list string) (log : list (list string))
    : result (list (list string)) :=
  match deps with
  | [] => Ok log
  | dep :: deps => log ← run dep triplet log; each_dep run triplet deps log
  end.

Fixpoint each_triplet (run : string → Triplet → list (list string) → result (list (list string)))
    (triplets : list Triplet) (deps : list string) (log : list (list string))
    : result (list (list string)) :=
  match triplets with
  | [] => Ok log
  | triplet :: triplets =>
      log ← each_dep run triplet deps log;
      each_triplet run triplets deps log
  end.

(** [deps build] and [deps rmbuild], from the parsed options. *)
Definition deps_build (o : Cli.options) : result (list (list string)) :=
  each_triplet install_library (Cli.triplets_of o)
    (Cli.iter (Cli.resolve_what (Cli.what o))) [].

Definition deps_rmbuild (o : Cli.options) : result (list (list string)) :=
  each_triplet remove_library (Cli.triplets_of o)
    (Cli.iter (Cli.resolve_what (Cli.what o))) [].

End Process.

(** One dependency of the copy action: the package directory is copied
    over [dst], then the fix of the dependency, if it has one, is applied. *)
Definition copy_dep (packages_path dst : path) (triplet : Triplet) (f : fs)
    (dep : string) : result fs :=
  let dep_pack_path :=
    packages_path ++ [dep +:+ "_" +:+ TripletM.to_string triplet] in
  f ← copy_tree f dep_pack_path dst;
  try_except (fixup ← Deps.COPY_FIXES dep; fixup f dst) is_KeyError (Ok f).

(** The part of the copy action before the manifest files are deleted. *)
Definition copy_staged (vcpkg_path output_path : path) (deps : list string)
    (f : fs) (triplet : Triplet) : result fs :=
  let packages_path := vcpkg_path ++ ["packages"] in
  let dst := output_path ++ [TripletM.to_string triplet] in
  f ← mkdir_exist_ok f dst;
  Deps.for_each (copy_dep packages_path dst triplet) f deps.

(** The body of the copy action for one triplet. *)
Definition copy_triplet (vcpkg_path output_path : path) (deps : list string)
    (f : fs) (triplet : Triplet) : result fs :=
  let dst := output_path ++ [TripletM.to_string triplet] in
  f ← copy_staged vcpkg_path output_path deps f triplet;
  f ← unlink f (dst ++ ["CONTROL"]);
  unlink f (dst ++ ["BUILD_INFO"]).

Fixpoint deps_copy_loop (vcpkg_path output_path : path) (deps : list string)
    (f : fs) (triplets : list Triplet) : result fs :=
  match triplets with
  | [] => Ok f
  | triplet :: triplets =>
      f ← copy_triplet vcpkg_path output_path deps f triplet;
      deps_copy_loop vcpkg_path output_path deps f triplets
  end.

(** [deps copy]. *)
Definition deps_copy (vcpkg_path output_path : path) (o : Cli.options)
    (f : fs) : result fs :=
  deps_copy_loop vcpkg_path output_path
    (Cli.iter (Cli.resolve_what (Cli.what o))) f (Cli.triplets_of o).

(** [deps rmcopy]. *)
Definition deps_rmcopy (output_path : path) (o : Cli.options) (f : fs) : fs :=
  foldl (fun f triplet =>
           rmtree_ignore_errors f (output_path ++ [TripletM.to_string triplet]))
        f (Cli.triplets_of o).

End Main.

(** ** The vcpkg administration of [VcPkg] *)

Module Admin.

(** The state that the administration acts on: the file system, and the
    child processes started so far, each with its working directory. *)
Record world : Type := mkWorld {
  files : fs;
  started : list (list string * path)
}.

(** [Path.exists()]. *)
Definition path_exists (f : fs) (p : path) : bool :=
  bool_decide (is_Some (f !! p)).

Section Process.

(** What [subprocess.run(cmd, cwd=cwd, check=True)] does to the file
    system, or what it raises; the programs are not part of this code. *)
Variable proc : list string → path → fs → result fs.

Variable vcpkg_path : path.
Variable output_path : path.

Definition run (cmd : list string) (cwd : path) (w : world) : result world :=
  f ← proc cmd cwd (files w);
  Ok (mkWorld f (started w ++ [(cmd, cwd)])).

(** [VcPkg.get_install_path]. *)
Definition get_install_path (triplet : Triplet) : path :=
  vcpkg_path ++ ["installed"] ++ [TripletM.to_string triplet].

Definition clone_cmd : list string :=
  ["git"; "clone"; "--depth"; "1"; "--"; "https://github.com/Microsoft/vcpkg";
   Main.path_str vcpkg_path].

Definition bootstrap_cmd : list string :=
  [Main.path_str (vcpkg_path ++ ["bootstrap-vcpkg.bat"])].

(** [VcPkg.build_vcpkg]. *)
Definition build_vcpkg (w : world) : result world :=
  w ← (if negb (path_exists (files w) vcpkg_path)
       then run clone_cmd output_path w
       else Ok w);
  if negb (path_exists (files w) (Main.exe_path vcpkg_path))
  then run bootstrap_cmd vcpkg_path w
  else Ok w.

(** The [cmds] of [update_vcpkg]. *)
Definition update_cmds : list (list string) :=
  [["git"; "fetch"; "origin"];
   ["git"; "reset"; "--hard"; "HEAD"];
   ["git"; "checkout"; "master"];
   ["git"; "merge"; "origin/master"];
   bootstrap_cmd].

Fixpoint run_all (cmds : list (list string)) (cwd : path) (w : world)
    : result world :=
  match cmds with
  | [] => Ok w
  | cmd :: cmds => w ← run cmd cwd w; run_all cmds cwd w
  end.

(** [VcPkg.update_vcpkg]. *)
Definition update_vcpkg (w : world) : result world :=
  w ← build_vcpkg w;
  run_all update_cmds vcpkg_path w.

End Process.

End Admin.

(** ** What the actions are meant to run *)

Module Plan.

(** One command line per triplet and dependency, the triplets outermost. *)
Definition commands (vcpkg_path : path) (verb : string)
    (triplets : list Triplet) (deps : list string) : list (list string) :=
  t ← triplets; d ← deps;
  [[Main.path_str (Main.exe_path vcpkg_path); verb; d; "--triplet";
    TripletM.to_string t]].

(** Every command line exits with success. *)
Definition all_succeed (exit_code : list string → Z)
    (cmds : list (list string)) : bool :=
  forallb (fun cmd => (exit_code cmd =? 0)%Z) cmds.

(** The per-triplet output directories of a list of triplets. *)
Definition destinations (output_path : path) (triplets : list Triplet)
    : list path :=
  (fun t => output_path ++ [TripletM.to_string t]) <$> triplets.

(** The line has the field layout of [Installed.matches_shape], with
    these three fields; the triplet field is any string without white
    space and colon. *)
Definition shaped (line name trip version : string) : Prop :=
  ∃ lead ws1 ws2 description : string,
    line = lead +:+ name +:+ ":" +:+ trip +:+ ws1 +:+ version +:+ ws2 +:+ description
    ∧ Str.all_space lead = true
    ∧ Str.no_space name = true ∧ Str.lacks Str.colon name = true
    ∧ Str.no_space trip = true ∧ Str.lacks Str.colon trip = true
    ∧ ws1 ≠ "" ∧ Str.all_space ws1 = true
    ∧ version ≠ "" ∧ Str.no_space version = true
    ∧ ws2 ≠ "" ∧ Str.all_space ws2 = true
    ∧ description ≠ "" ∧ Str.starts_space description = false.

(** A line [name:triplet version description] of the listing: the fields
    are laid out as in [shaped], the name is not empty and the triplet has
    two or three dash-separated components. *)
Definition listing_line (line : string) : Prop :=
  ∃ name trip version : string,
    shaped line name trip version
    ∧ name ≠ ""
    ∧ ∃ a sy : string,
        Str.lacks Str.dash a = true ∧ Str.lacks Str.dash sy = true
        ∧ (trip = a +:+ "-" +:+ sy
           ∨ ∃ l : string,
               Str.lacks Str.dash l = true
               ∧ trip = a +:+ "-" +:+ sy +:+ "-" +:+ l).

(** The names of the lines that [parse_line] accepts. *)
Definition parsed_names (lines : list string) : list string :=
  omap (fun line =>
          match Installed.parse_line line with
          | Ok (name, _, _) => Some name
          | Raise _ => None
          end) lines.

(** The string has a carriage return followed by a line feed in it. *)
Fixpoint has_crlf (s : string) : bool :=
  match s with
  | String c (String c' _ as rest) =>
      (Ascii.eqb c "013"%char && Ascii.eqb c' "010"%char) || has_crlf rest
  | _ => false
  end.

End Plan.

(** ** Sample inputs *)

Module Sample.

(** A vcpkg tree with one staged package, and an output directory. *)
Definition staged : fs :=
  of_entries
    [([], Dir); (["out"], Dir); (["vc"], Dir); (["vc"; "packages"], Dir);
     (["vc"; "packages"; "glm_x86-windows"], Dir);
     (["vc"; "packages"; "glm_x86-windows"; "CONTROL"], File "Source: glm");
     (["vc"; "packages"; "glm_x86-windows"; "BUILD_INFO"], File "CRTLinkage: dynamic");
     (["vc"; "packages"; "glm_x86-windows"; "include"], Dir);
     (["vc"; "packages"; "glm_x86-windows"; "include"; "glm.hpp"], File "#pragma once")].

(** The same tree, the staged package lacking its [BUILD_INFO]. *)
Definition staged_without_build_info : fs :=
  delete ["vc"; "packages"; "glm_x86-windows"; "BUILD_INFO"] staged.

(** An output directory after the copy of bullet3: one debug library has
    the debug suffix, one has been renamed already. *)
Definition copied_bullet3 : fs :=
  of_entries
    [([], Dir); (["out"], Dir); (["out"; "debug"], Dir);
     (["out"; "debug"; "lib"], Dir);
     (["out"; "debug"; "lib"; "BulletCollision_Debug.lib"], File "collision");
     (["out"; "debug"; "lib"; "LinearMath.lib"], File "math")].

(** The command line [-w bullet3,glm -a x86 -l dynamic]. *)
Definition argv_two_deps : Cli.argv :=
  Cli.mkArgv (Some "bullet3,glm") (Some "x86") None (Some "dynamic").

(** The command line [-a x86 -l dynamic], with no [-w]. *)
Definition argv_no_deps : Cli.argv :=
  Cli.mkArgv None (Some "x86") None (Some "dynamic").

(** A child process that always succeeds and changes nothing. *)
Definition proc_idle (cmd : list string) (cwd : path) (f : fs) : result fs :=
  Ok f.

(** An empty disk with an output directory. *)
Definition fresh : fs := of_entries [([], Dir); (["out"], Dir)].

(** Child processes of a checkout whose clone brings no executable: the
    clone makes the directory [vc], every other command makes
    [vc/vcpkg.exe]. *)
Definition proc_clone_bare (cmd : list string) (cwd : path) (f : fs)
    : result fs :=
  match cmd with
  | "git" :: "clone" :: _ => Ok (<[["vc"] := Dir]> f)
  | _ => Ok (<[["vc"; "vcpkg.exe"] := File "MZ"]> f)
  end.

(** Child processes of a checkout whose clone brings the executable. *)
Definition proc_clone_full (cmd : list string) (cwd : path) (f : fs)
    : result fs :=
  match cmd with
  | "git" :: "clone" :: _ =>
      Ok (<[["vc"; "vcpkg.exe"] := File "MZ"]> (<[["vc"] := Dir]> f))
  | _ => Raise CalledProcessError
  end.

(** A vcpkg checkout that has been bootstrapped. *)
Definition bootstrapped : fs :=
  of_entries
    [([], Dir); (["out"], Dir); (["vc"], Dir);
     (["vc"; "vcpkg.exe"], File "MZ")].

(** An output tree with the directories of two triplets and a file that
    belongs to neither. *)
Definition copied_two : fs :=
  of_entries
    [([], Dir); (["out"], Dir); (["out"; "notes.txt"], File "keep");
     (["out"; "x86-windows"], Dir);
     (["out"; "x86-windows"; "include"], Dir);
     (["out"; "x86-windows"; "include"; "glm.hpp"], File "#pragma once");
     (["out"; "x86-windows-static"], Dir);
     (["out"; "x86-windows-static"; "lib.a"], File "ar")].

(** An output directory after the copy of sdl2, one debug library with
    the debug suffix. *)
Definition copied_sdl2 : fs :=
  of_entries
    [([], Dir); (["out"], Dir); (["out"; "debug"], Dir);
     (["out"; "debug"; "lib"], Dir);
     (["out"; "debug"; "lib"; "SDL2d.lib"], File "sdl");
     (["out"; "debug"; "lib"; "SDL2main.lib"], File "main")].

End Sample.

(** ** Properties of the string operations *)

Module StrFacts.

Import Str.

Lemma lacks_cons c x s :
  lacks c (String x s) = true ↔ Ascii.eqb x c = false ∧ lacks c s = true.
Proof.
  simpl. rewrite andb_true_iff, negb_true_iff. tauto.
Qed.

(** A string without the separator is its own single component. *)
Lemma split_char_lacks c s : lacks c s = true → split_char c s = [s].
Proof.
  induction s as [|x s IH]; [done|].
  intros [Hx Hs]%lacks_cons. simpl. by rewrite Hx, (IH Hs).
Qed.

(** The first component ends at the first separator. *)
Lemma split_char_app c a r :
  lacks c a = true →
  split_char c (a +:+ String c r) = a :: split_char c r.
Proof.
  induction a as [|x a IH].
  - intros _. simpl. by rewrite Ascii.eqb_refl.
  - intros [Hx Ha]%lacks_cons. simpl. by rewrite Hx, (IH Ha).
Qed.

Lemma split_char_nonempty c s : split_char c s ≠ [].
Proof.
  destruct s as [|x s]; [done|]. simpl.
  destruct (Ascii.eqb x c); [done|]. by destruct (split_char c s).
Qed.

(** The components have no separator in them, and joining them with the
    separator gives the string back. *)
Lemma split_char_components c s :
  Forall (fun w => lacks c w = true) (split_char c s).
Proof.
  induction s as [|x s IH]; simpl.
  - by repeat constructor.
  - destruct (Ascii.eqb x c) eqn:Hx.
    + by constructor.
    + destruct (split_char c s) as [|w ws].
      * constructor; [|constructor]. by apply lacks_cons.
      * inversion IH; subst. constructor; [|done].
        by apply lacks_cons.
Qed.

Lemma join_split_char c s : join_char c (split_char c s) = s.
Proof.
  induction s as [|x s IH]; [done|]. simpl.
  destruct (Ascii.eqb x c) eqn:Hx.
  - apply Ascii.eqb_eq in Hx as ->.
    pose proof (split_char_nonempty c s) as Hne.
    destruct (split_char c s) as [|w ws]; [done|].
    change (join_char c ("" :: w :: ws)) with (String c (join_char c (w :: ws))).
    by rewrite IH.
  - pose proof (split_char_nonempty c s) as Hne.
    destruct (split_char c s) as [|w ws]; [done|].
    destruct ws as [|w' ws]; simpl in *; by rewrite <- IH.
Qed.

Lemma append_cons x (a b : string) : String x a +:+ b = String x (a +:+ b).
Proof. reflexivity. Qed.

Lemma append_assoc (a b c : string) : (a +:+ b) +:+ c = a +:+ (b +:+ c).
Proof.
  induction a as [|x a IH]; [done|]. by rewrite !append_cons, IH.
Qed.

Lemma append_nil_r (a : string) : a +:+ "" = a.
Proof.
  induction a as [|x a IH]; [done|]. by rewrite append_cons, IH.
Qed.

Lemma lacks_app c (a b : string) :
  lacks c (a +:+ b) = lacks c a && lacks c b.
Proof.
  induction a as [|x a IH]; [done|].
  rewrite append_cons. simpl. by rewrite IH, andb_assoc.
Qed.

Lemma no_space_app (a b : string) :
  no_space (a +:+ b) = no_space a && no_space b.
Proof.
  induction a as [|x a IH]; [done|].
  rewrite append_cons. simpl. by rewrite IH, andb_assoc.
Qed.

(** *** Skipping white space and taking a word *)

Lemma skip_ws_decomp s :
  ∃ lead, all_space lead = true ∧ s = lead +:+ skip_ws s.
Proof.
  induction s as [|x s (lead & Hlead & Hs)]; [by exists ""|].
  simpl. destruct (is_space x) eqn:Hx.
  - exists (String x lead). split; [simpl; by rewrite Hx|].
    by rewrite append_cons, <- Hs.
  - by exists "".
Qed.

Lemma skip_ws_starts s : starts_space (skip_ws s) = false.
Proof.
  induction s as [|x s IH]; [done|]. simpl.
  by destruct (is_space x) eqn:Hx; simpl.
Qed.

Lemma skip_ws_id s : starts_space s = false → skip_ws s = s.
Proof. destruct s as [|x s]; [done|]. simpl. by intros ->. Qed.

Lemma skip_ws_app lead s :
  all_space lead = true → skip_ws (lead +:+ s) = skip_ws s.
Proof.
  induction lead as [|x lead IH]; [done|].
  intros H. simpl in H. apply andb_true_iff in H as [Hx Hlead].
  rewrite append_cons. simpl. by rewrite Hx, IH.
Qed.

Lemma take_word_decomp s w r :
  take_word s = (w, r) →
  s = w +:+ r ∧ no_space w = true ∧ (r = "" ∨ starts_space r = true).
Proof.
  revert w r. induction s as [|x s IH]; intros w r; simpl.
  - intros [= <- <-]. auto.
  - destruct (is_space x) eqn:Hx.
    + intros [= <- <-]. simpl. rewrite Hx. auto.
    + destruct (take_word s) as [w' r'] eqn:Hs. intros [= <- <-].
      destruct (IH w' r' eq_refl) as (-> & Hw & Hr).
      rewrite append_cons. simpl. by rewrite Hx, Hw.
Qed.

Lemma take_word_nonempty s w r :
  take_word s = (w, r) → s ≠ "" → starts_space s = false → w ≠ "".
Proof.
  destruct s as [|x s]; [done|]. simpl. intros Hs _ Hx. rewrite Hx in Hs.
  destruct (take_word s) as [w' r']. by injection Hs as <- <-.
Qed.

Lemma take_word_app w r :
  no_space w = true → r = "" ∨ starts_space r = true →
  take_word (w +:+ r) = (w, r).
Proof.
  induction w as [|x w IH].
  - intros _ [->|Hr]; [done|]. destruct r as [|y r]; [done|].
    simpl in *. by rewrite Hr.
  - intros H Hr. simpl in H. apply andb_true_iff in H as [Hx Hw].
    apply negb_true_iff in Hx.
    rewrite append_cons. simpl. by rewrite Hx, (IH Hw Hr).
Qed.

Lemma all_space_starts ws s :
  ws ≠ "" → all_space ws = true → starts_space (ws +:+ s) = true.
Proof.
  destruct ws as [|x ws]; [done|]. simpl.
  by intros _ [Hx _]%andb_true_iff.
Qed.

Lemma no_space_starts w s :
  w ≠ "" → no_space w = true → starts_space (w +:+ s) = false.
Proof.
  destruct w as [|x w]; [done|]. simpl.
  by intros _ [Hx%negb_true_iff _]%andb_true_iff.
Qed.

Lemma append_nonempty_l (a b : string) : a ≠ "" → a +:+ b ≠ "".
Proof. by destruct a. Qed.

(** The third field and what surrounds the three fields: the line splits
    in three exactly when it is made of three fields and the white space
    between them, the last field running to the end of the line. *)
Lemma split_ws_max2_three line f1 v d :
  split_ws_max2 line = [f1; v; d]
  ↔ ∃ lead ws1 ws2,
      line = lead +:+ f1 +:+ ws1 +:+ v +:+ ws2 +:+ d
      ∧ all_space lead = true
      ∧ f1 ≠ "" ∧ no_space f1 = true
      ∧ ws1 ≠ "" ∧ all_space ws1 = true
      ∧ v ≠ "" ∧ no_space v = true
      ∧ ws2 ≠ "" ∧ all_space ws2 = true
      ∧ d ≠ "" ∧ starts_space d = false.
Proof.
  unfold split_ws_max2. split.
  - destruct (skip_ws_decomp line) as (lead & Hlead & Hline).
    destruct (String.eqb_spec (skip_ws line) "") as [|Hs0]; [done|].
    destruct (take_word (skip_ws line)) as [w1 r1] eqn:Hw1.
    destruct (take_word_decomp _ _ _ Hw1) as (Hs0' & Hnw1 & Hr1).
    pose proof (take_word_nonempty _ _ _ Hw1 Hs0 (skip_ws_starts line)) as Hw1ne.
    destruct (skip_ws_decomp r1) as (ws1 & Hws1 & Hr1').
    destruct (String.eqb_spec (skip_ws r1) "") as [|Hs1]; [done|].
    destruct (take_word (skip_ws r1)) as [w2 r2] eqn:Hw2.
    destruct (take_word_decomp _ _ _ Hw2) as (Hs1' & Hnw2 & Hr2).
    pose proof (take_word_nonempty _ _ _ Hw2 Hs1 (skip_ws_starts r1)) as Hw2ne.
    destruct (skip_ws_decomp r2) as (ws2 & Hws2 & Hr2').
    destruct (String.eqb_spec (skip_ws r2) "") as [|Hs2]; [done|].
    intros [= <- <- <-]. exists lead, ws1, ws2.
    assert (ws1 ≠ "") as Hws1ne.
    { intros ->. change (r1 = skip_ws r1) in Hr1'.
      destruct Hr1 as [->|Hr1]; [done|].
      pose proof (skip_ws_starts r1) as Hst. rewrite <- Hr1' in Hst. congruence. }
    assert (ws2 ≠ "") as Hws2ne.
    { intros ->. change (r2 = skip_ws r2) in Hr2'.
      destruct Hr2 as [->|Hr2]; [done|].
      pose proof (skip_ws_starts r2) as Hst. rewrite <- Hr2' in Hst. congruence. }
    repeat split; try done; [|apply skip_ws_starts].
    rewrite Hline at 1. f_equal. rewrite Hs0' at 1. f_equal.
    rewrite Hr1' at 1. f_equal. rewrite Hs1' at 1. f_equal. done.
  - intros (lead & ws1 & ws2 & -> & Hlead & Hf1 & Hnf1 & Hws1 & Haws1
            & Hv & Hnv & Hws2 & Haws2 & Hd & Hsd).
    rewrite (skip_ws_app _ _ Hlead).
    rewrite (skip_ws_id _ (no_space_starts _ _ Hf1 Hnf1)).
    destruct (String.eqb_spec (f1 +:+ ws1 +:+ v +:+ ws2 +:+ d) "") as [He|_];
      [by apply append_nonempty_l in He|].
    rewrite (take_word_app _ _ Hnf1
               (or_intror (all_space_starts _ _ Hws1 Haws1))).
    rewrite (skip_ws_app _ _ Haws1).
    rewrite (skip_ws_id _ (no_space_starts _ _ Hv Hnv)).
    destruct (String.eqb_spec (v +:+ ws2 +:+ d) "") as [He|_];
      [by apply append_nonempty_l in He|].
    rewrite (take_word_app _ _ Hnv
               (or_intror (all_space_starts _ _ Hws2 Haws2))).
    rewrite (skip_ws_app _ _ Haws2), (skip_ws_id _ Hsd).
    by destruct (String.eqb_spec d "").
Qed.

(** A line never splits in more than three. *)
Lemma split_ws_max2_length line : (length (split_ws_max2 line) ≤ 3)%nat.
Proof.
  unfold split_ws_max2.
  destruct (String.eqb (skip_ws line) ""); [simpl; lia|].
  destruct (take_word (skip_ws line)) as [w1 r1].
  destruct (String.eqb (skip_ws r1) ""); [simpl; lia|].
  destruct (take_word (skip_ws r1)) as [w2 r2].
  destruct (String.eqb (skip_ws r2) ""); simpl; lia.
Qed.

(** A string splits in two at a character exactly when it has that
    character once. *)
Lemma split_char_two c s a b :
  split_char c s = [a; b]
  ↔ s = a +:+ String c b ∧ lacks c a = true ∧ lacks c b = true.
Proof.
  split.
  - intros Hs. pose proof (join_split_char c s) as Hjoin.
    pose proof (split_char_components c s) as Hall.
    rewrite Hs in Hjoin, Hall.
    inversion Hall as [|? ? Ha Hall']; subst.
    inversion Hall' as [|? ? Hb _]; subst. done.
  - intros (-> & Ha & Hb).
    by rewrite (split_char_app _ _ _ Ha), (split_char_lacks _ _ Hb).
Qed.

End StrFacts.

(** ** The triplet: parsing, printing, comparing, hashing *)

Module TripletFacts.

Import Str StrFacts TripletM.

(** The number of components is below two exactly when there is no dash. *)
Lemma one_component c s :
  (length (split_char c s) < 2)%nat ↔ lacks c s = true.
Proof.
  split.
  - induction s as [|x s IH]; [done|]. simpl.
    pose proof (split_char_nonempty c s) as Hne.
    destruct (Ascii.eqb x c) eqn:Hx; simpl.
    + destruct (split_char c s); [done|]. simpl. lia.
    + destruct (split_char c s) as [|w ws]; [done|]. simpl in *.
      intros Hlen. by rewrite IH.
  - intros ->%split_char_lacks. simpl. lia.
Qed.

Lemma from_string_parts s a sy l rest :
  split_char dash s = a :: sy :: l :: rest →
  from_string s = Ok (mkTriplet a sy l).
Proof.
  intros Hs. unfold from_string. rewrite Hs. reflexivity.
Qed.

Lemma from_string_two_parts s a sy :
  split_char dash s = [a; sy] →
  from_string s = Ok (mkTriplet a sy "dynamic").
Proof.
  intros Hs. unfold from_string. rewrite Hs. reflexivity.
Qed.

Lemma from_string_one_part s :
  (length (split_char dash s) < 2)%nat → from_string s = Raise IndexError.
Proof.
  intros Hlen. unfold from_string.
  pose proof (split_char_nonempty dash s) as Hne.
  destruct (split_char dash s) as [|a [|sy rest]]; simpl in *; [done|done|lia].
Qed.

(** The split of [a-sy] and of [a-sy-l], for components without a dash. *)
Lemma split_two a sy :
  lacks dash a = true → lacks dash sy = true →
  split_char dash (a +:+ "-" +:+ sy) = [a; sy].
Proof.
  intros Ha Hsy. change ("-" +:+ sy) with (String dash sy).
  by rewrite (split_char_app _ _ _ Ha), (split_char_lacks _ _ Hsy).
Qed.

Lemma split_three a sy r :
  lacks dash a = true → lacks dash sy = true →
  split_char dash (a +:+ "-" +:+ sy +:+ "-" +:+ r) = a :: sy :: split_char dash r.
Proof.
  intros Ha Hsy. change ("-" +:+ sy +:+ "-" +:+ r) with (String dash (sy +:+ String dash r)).
  by rewrite (split_char_app _ _ _ Ha), (split_char_app _ _ _ Hsy).
Qed.

(** What [__eq__] decides: the system of [self] is compared with the
    architecture of [other]. *)
Lemma eq_spec (t1 t2 : Triplet) :
  eq t1 (OTriplet t2) = true
  ↔ arch t1 = arch t2 ∧ system t1 = arch t2 ∧ linkage t1 = linkage t2.
Proof.
  unfold eq. rewrite !andb_true_iff, !String.eqb_eq. tauto.
Qed.

Lemma xor_fold_perm (l1 l2 : list Z) :
  l1 ≡ₚ l2 → foldr Z.lxor 0%Z l1 = foldr Z.lxor 0%Z l2.
Proof.
  induction 1 as [|x l l' _ IH|x y l|l l' l'' _ IH1 _ IH2]; simpl.
  - done.
  - by rewrite IH.
  - by rewrite <- (Z.lxor_assoc y x), <- (Z.lxor_assoc x y), (Z.lxor_comm y x).
  - by rewrite IH1.
Qed.

Lemma hash_method_fold hash_str t :
  hash_method hash_str t = foldr Z.lxor 0%Z (hash_str <$> fields t).
Proof.
  unfold hash_method, fields. simpl.
  by rewrite Z.lxor_0_r, Z.lxor_assoc.
Qed.

(** C1, at the failing input: the code compares the system of the one
    triplet with the architecture of the other, so a triplet whose three
    fields match those of x86-windows pairwise is still unequal to it;
    and two triplets that differ in the system field compare equal. *)
Theorem eq_not_fieldwise :
  eq X86_WINDOWS_DYNAMIC (OTriplet (mkTriplet "x86" "windows" "dynamic")) = false
  ∧ eq (mkTriplet "x86" "x86" "static")
       (OTriplet (mkTriplet "x86" "windows" "static")) = true.
Proof. split; reflexivity. Qed.

(** C2, as the code has it: for components without a dash, the string
    [a-s] is its own canonical form, [a-s-l] is its own canonical form
    when [l] is "static", and for every other [l] the canonical form of
    [a-s-l] is [a-s]. *)
Theorem canonical_roundtrip (a sy l : string) :
  lacks dash a = true → lacks dash sy = true → lacks dash l = true →
  canonical (a +:+ "-" +:+ sy) = Ok (a +:+ "-" +:+ sy)
  ∧ canonical (a +:+ "-" +:+ sy +:+ "-" +:+ l)
    = Ok (if String.eqb l "static" then a +:+ "-" +:+ sy +:+ "-" +:+ l
          else a +:+ "-" +:+ sy).
Proof.
  intros Ha Hsy Hl. unfold canonical. split.
  - by rewrite (from_string_two_parts _ a sy (split_two _ _ Ha Hsy)).
  - rewrite (from_string_parts _ a sy l []).
    + done.
    + by rewrite (split_three _ _ _ Ha Hsy), (split_char_lacks _ _ Hl).
Qed.

Lemma canonical_roundtrip_witness :
  canonical "x64-windows" = Ok "x64-windows"
  ∧ canonical "x64-windows-static" = Ok "x64-windows-static".
Proof.
  apply (canonical_roundtrip "x64" "windows" "static"); reflexivity.
Defined.

(** C2, as the claim has it, fails: the linkage "debug" is present and is
    not "dynamic", and the canonical form drops it. *)
Lemma canonical_drops_linkage :
  "debug" ≠ "dynamic"
  ∧ canonical "x86-windows-debug" = Ok "x86-windows"
  ∧ canonical "x86-windows-debug" ≠ Ok "x86-windows-debug".
Proof. split; [done|]. split; [reflexivity|]. vm_compute. congruence. Qed.

(** C5: the architectures x86, x64, the system windows and the linkages
    dynamic, static give exactly four triplets, the architecture changing
    slowest and the linkage fastest. *)
Theorem make_triplets_cross_product :
  make_triplets ["x86"; "x64"] ["windows"] ["dynamic"; "static"]
  = [X86_WINDOWS_DYNAMIC; X86_WINDOWS_STATIC;
     X64_WINDOWS_DYNAMIC; X64_WINDOWS_STATIC]
  ∧ length (make_triplets ["x86"; "x64"] ["windows"] ["dynamic"; "static"]) = 4%nat.
Proof. split; reflexivity. Qed.

(** C7: with fewer than two dash-separated components [from_string]
    raises (the [IndexError] of the list index is how the format error
    shows); with exactly two it returns the triplet of the two with the
    linkage "dynamic"; with a third component "static" the linkage is
    "static". *)
Theorem from_string_by_components (s : string) :
  ((length (split_char dash s) < 2)%nat → from_string s = Raise IndexError)
  ∧ (length (split_char dash s) = 2%nat →
     ∃ a sy, s = a +:+ "-" +:+ sy
             ∧ from_string s = Ok (mkTriplet a sy "dynamic"))
  ∧ (split_char dash s !! 2%nat = Some "static" →
     ∃ a sy, split_char dash s !! 0%nat = Some a
             ∧ split_char dash s !! 1%nat = Some sy
             ∧ from_string s = Ok (mkTriplet a sy "static")).
Proof.
  split; [apply from_string_one_part|]. split.
  - intros Hlen. pose proof (join_split_char dash s) as Hjoin.
    destruct (split_char dash s) as [|a [|sy [|l rest]]] eqn:Hs; try done.
    exists a, sy. split; [by rewrite <- Hjoin|].
    by apply from_string_two_parts.
  - intros Hl.
    destruct (split_char dash s) as [|a [|sy [|l rest]]] eqn:Hs; try done.
    simpl in Hl. injection Hl as ->. exists a, sy.
    repeat split. by apply (from_string_parts _ _ _ _ rest).
Qed.

Lemma from_string_by_components_witness :
  from_string "x86" = Raise IndexError
  ∧ (∃ a sy, "x86-windows" = a +:+ "-" +:+ sy
             ∧ from_string "x86-windows" = Ok (mkTriplet a sy "dynamic"))
  ∧ (∃ a sy, split_char dash "x86-windows-static" !! 0%nat = Some a
             ∧ split_char dash "x86-windows-static" !! 1%nat = Some sy
             ∧ from_string "x86-windows-static" = Ok (mkTriplet a sy "static")).
Proof.
  split; [|split].
  - apply (from_string_by_components "x86"). vm_compute. lia.
  - apply (from_string_by_components "x86-windows"). reflexivity.
  - apply (from_string_by_components "x86-windows-static"). reflexivity.
Defined.

(** C9: with four or more dash-separated components [from_string] does
    not fail: it returns the triplet of the first three and ignores the
    rest. *)
Theorem from_string_extra_components (s : string) :
  (4 ≤ length (split_char dash s))%nat →
  ∃ a sy l, split_char dash s !! 0%nat = Some a
            ∧ split_char dash s !! 1%nat = Some sy
            ∧ split_char dash s !! 2%nat = Some l
            ∧ from_string s = Ok (mkTriplet a sy l).
Proof.
  intros Hlen.
  destruct (split_char dash s) as [|a [|sy [|l rest]]] eqn:Hs;
    simpl in Hlen; try lia.
  exists a, sy, l. repeat split. by apply (from_string_parts _ _ _ _ rest).
Qed.

Lemma from_string_extra_components_witness :
  ∃ a sy l, split_char dash "a-b-c-d" !! 0%nat = Some a
            ∧ split_char dash "a-b-c-d" !! 1%nat = Some sy
            ∧ split_char dash "a-b-c-d" !! 2%nat = Some l
            ∧ from_string "a-b-c-d" = Ok (mkTriplet a sy l).
Proof.
  apply (from_string_extra_components "a-b-c-d"). vm_compute. lia.
Defined.

(** C10: the hash of a triplet is the exclusive or of the hashes of its
    three fields, so two triplets whose fields are a permutation of each
    other have the same hash, both as [__hash__] returns it and as the
    builtin [hash] does. *)
Theorem hash_permutation_invariant (hash_str : string → Z) (t1 t2 : Triplet) :
  fields t1 ≡ₚ fields t2 →
  hash_method hash_str t1
  = Z.lxor (Z.lxor (hash_str (arch t1)) (hash_str (system t1)))
           (hash_str (linkage t1))
  ∧ hash_method hash_str t1 = hash_method hash_str t2
  ∧ hash hash_str t1 = hash hash_str t2.
Proof.
  intros Hperm. split; [done|].
  assert (hash_method hash_str t1 = hash_method hash_str t2) as Heq.
  { rewrite !hash_method_fold. apply xor_fold_perm. by rewrite Hperm. }
  split; [done|]. unfold hash. by rewrite Heq.
Qed.

Lemma hash_permutation_invariant_witness :
  hash (fun s => Z.of_nat (String.length s)) (mkTriplet "x86" "windows" "static")
  = hash (fun s => Z.of_nat (String.length s)) (mkTriplet "windows" "x86" "static").
Proof.
  apply (hash_permutation_invariant _ (mkTriplet "x86" "windows" "static")
           (mkTriplet "windows" "x86" "static")).
  apply perm_swap.
Defined.

End TripletFacts.

(** ** The list of installed packages *)

Module InstalledFacts.

Import Str StrFacts TripletM Installed.

Lemma from_string_raises s e : from_string s = Raise e → e = IndexError.
Proof.
  unfold from_string.
  destruct (if (length (split_char dash s) =? 2)%nat
            then split_char dash s ++ ["dynamic"] else split_char dash s)
    as [|a [|sy [|l rest]]]; simpl; congruence.
Qed.

(** The shape, said without the parser, is the shape that the two
    unpackings accept. *)
Lemma unpacks_shape line : unpacks line = true ↔ matches_shape line.
Proof.
  unfold unpacks, matches_shape. split.
  - destruct (split_ws_max2 line) as [|nt [|v [|d [|]]]] eqn:Hsplit; try done.
    destruct (split_char colon nt) as [|name [|trip [|]]] eqn:Hnt; try done.
    intros _.
    apply split_ws_max2_three in Hsplit
      as (lead & ws1 & ws2 & -> & Hlead & Hnt1 & Hnt2 & Hws1 & Haws1
          & Hv & Hnv & Hws2 & Haws2 & Hd & Hsd).
    apply split_char_two in Hnt as (-> & Hname & Htrip).
    rewrite no_space_app in Hnt2. apply andb_true_iff in Hnt2 as [Hn1 Hn2].
    simpl in Hn2.
    exists lead, name, trip, ws1, v, ws2, d.
    repeat split; try done.
    by rewrite append_assoc.
  - intros (lead & name & trip & ws1 & v & ws2 & d & -> & Hlead & Hn1 & Hname
            & Hn2 & Htrip & Hws1 & Haws1 & Hv & Hnv & Hws2 & Haws2 & Hd & Hsd).
    assert (split_ws_max2
              (lead +:+ name +:+ ":" +:+ trip +:+ ws1 +:+ v +:+ ws2 +:+ d)
            = [name +:+ String colon trip; v; d]) as ->.
    { apply split_ws_max2_three. exists lead, ws1, ws2.
      repeat split; try done.
      - by rewrite append_assoc.
      - by destruct name.
      - rewrite no_space_app. simpl. by rewrite Hn1, Hn2. }
    assert (split_char colon (name +:+ String colon trip) = [name; trip]) as ->;
      [|done].
    by apply split_char_two.
Qed.

Lemma parse_line_unpacks line :
  unpacks line = false ↔ parse_line line = Raise ValueError.
Proof.
  unfold unpacks, parse_line.
  destruct (split_ws_max2 line) as [|nt [|v [|d [|]]]]; try done.
  destruct (split_char colon nt) as [|name [|trip [|]]]; try done.
  split; [done|]. intros Hp. exfalso.
  destruct (from_string trip) as [t|e] eqn:Ht; simpl in Hp; [done|].
  apply from_string_raises in Ht. unfold mbind, result_bind in Hp.
  simpl in Hp. congruence.
Qed.

(** A line with no colon does not have the shape. *)
Lemma shape_has_colon line : matches_shape line → lacks colon line = false.
Proof.
  intros (lead & name & trip & ws1 & v & ws2 & d & -> & _).
  rewrite !lacks_app. simpl. by rewrite !andb_false_r.
Qed.

(** A line that does not have the shape leaves the mapping as it is. *)
Lemma add_line_skips hash_str hash_tuple nv line :
  ¬ matches_shape line → add_line hash_str hash_tuple nv line = Ok nv.
Proof.
  intros Hshape. unfold add_line.
  assert (parse_line line = Raise ValueError) as ->; [|done].
  apply parse_line_unpacks. rewrite <- unpacks_shape in Hshape.
  by destruct (unpacks line).
Qed.

(** A line that has the shape either adds an entry or fails on the
    triplet: the [IndexError] of [from_string] is not caught. *)
Lemma add_line_shape hash_str hash_tuple nv line :
  matches_shape line →
  (∃ name t v,
     parse_line line = Ok (name, t, v)
     ∧ add_line hash_str hash_tuple nv line
       = Ok (<[name := set_add hash_str hash_tuple (default [] (nv !! name)) (t, v)]> nv))
  ∨ add_line hash_str hash_tuple nv line = Raise IndexError.
Proof.
  intros Hshape%unpacks_shape. unfold add_line.
  destruct (parse_line line) as [[[name t] v]|e] eqn:Hp.
  - left. by exists name, t, v.
  - right. assert (e = IndexError) as ->; [|done].
    unfold unpacks, parse_line in *.
    destruct (split_ws_max2 line) as [|nt [|ver [|d [|]]]]; try done.
    destruct (split_char colon nt) as [|name [|trip [|]]]; try done.
    destruct (from_string trip) as [t|e'] eqn:Ht; [done|].
    apply from_string_raises in Ht as ->.
    unfold mbind, result_bind in Hp. simpl in Hp. congruence.
Qed.

End InstalledFacts.

(** ** The copy fix-ups *)

Module FixFacts.

Import Deps.

Lemma parent_join (p : path) name : parent (p ++ [name]) = p.
Proof. apply removelast_last. Qed.

Lemma join_ne (p : path) name : p ++ [name] ≠ p.
Proof.
  intros Heq. apply (f_equal length) in Heq.
  rewrite length_app in Heq. simpl in Heq. lia.
Qed.

Lemma join_inj (p : path) a b : p ++ [a] = p ++ [b] → a = b.
Proof. intros Heq%app_inv_head. congruence. Qed.

(** In a well-formed file system an entry lies in a directory. *)
Lemma wf_parent (f : fs) (p : path) name n :
  wf f → f !! (p ++ [name]) = Some n → f !! p = Some Dir.
Proof.
  intros Hwf Hn. destruct (map_Forall_lookup_1 _ _ _ _ Hwf Hn) as [Hnil|Hp].
  - by destruct p.
  - by rewrite parent_join in Hp.
Qed.

(** [shutil.move] of a file that is not there, and of one that is. *)
Lemma shutil_move_absent (f : fs) (src dst : path) :
  f !! src = None → f !! dst ≠ Some Dir →
  shutil_move f src dst = Raise FileNotFoundError.
Proof.
  intros Hsrc Hdst. unfold shutil_move, rename. rewrite Hsrc.
  by destruct (f !! dst) as [[c|]|].
Qed.

Lemma shutil_move_file (f : fs) (src dst : path) c :
  f !! src = Some (File c) → f !! dst ≠ Some Dir →
  f !! parent dst = Some Dir →
  shutil_move f src dst = Ok (<[dst := File c]> (delete src f)).
Proof.
  intros Hsrc Hdst Hparent. unfold shutil_move, rename.
  rewrite Hsrc, Hparent. by destruct (f !! dst) as [[c'|]|].
Qed.

Section OneDirectory.

Variable lib : path.
Variable suffix : string.

Local Abbreviation orig n := (lib ++ [n +:+ suffix]).
Local Abbreviation targ n := (lib ++ [n +:+ ".lib"]).
Local Abbreviation step := (rename_if_present lib suffix).
Local Abbreviation movable := (Deps.movable lib suffix).

(** One iteration of the loop does the one step. *)
Lemma move_lib_step f n :
  movable f n → move_lib lib suffix f n = Ok (step f n).
Proof.
  intros (Ht & Ho & Hlib). unfold move_lib, rename_if_present.
  destruct (f !! orig n) as [[c|]|] eqn:Hon; [|done|].
  - rewrite (shutil_move_file f (orig n) (targ n) c); try done.
    rewrite parent_join. apply Hlib. by eexists.
  - by rewrite (shutil_move_absent f (orig n) (targ n)).
Qed.

(** A step writes files and deletes, and nothing else. *)
Lemma step_lookup f m (q : path) :
  step f m !! q = f !! q
  ∨ ∃ c, f !! orig m = Some (File c)
         ∧ (step f m !! q = Some (File c) ∨ step f m !! q = None).
Proof.
  unfold rename_if_present.
  destruct (f !! orig m) as [[c|]|] eqn:Hom; [|by left..].
  destruct (decide (q = targ m)) as [->|Hqt].
  - right. exists c. rewrite lookup_insert_eq. auto.
  - rewrite lookup_insert_ne by done.
    destruct (decide (q = orig m)) as [->|Hqo].
    + right. exists c. rewrite lookup_delete_eq. auto.
    + left. by rewrite lookup_delete_ne.
Qed.

Lemma step_lookup_other f m (q : path) :
  q ≠ orig m → q ≠ targ m → step f m !! q = f !! q.
Proof.
  intros Hqo Hqt. unfold rename_if_present.
  destruct (f !! orig m) as [[c|]|]; [|done..].
  by rewrite lookup_insert_ne, lookup_delete_ne.
Qed.

Lemma step_movable f m n : movable f m → movable f n → movable (step f m) n.
Proof.
  intros (Htm & Hom & Hlm) (Htn & Hon & Hln).
  assert (step f m !! lib = f !! lib) as Hlib.
  { apply step_lookup_other; intros Heq; symmetry in Heq;
      by apply join_ne in Heq. }
  repeat split.
  - destruct (step_lookup f m (targ n)) as [->|(c & _ & [->| ->])]; done.
  - destruct (step_lookup f m (orig n)) as [->|(c & _ & [->| ->])]; done.
  - rewrite Hlib.
    destruct (step_lookup f m (orig n)) as [->|(c & Hc & _)]; [done|].
    intros _. apply Hlm. by rewrite Hc.
Qed.

(** The loop does the steps one after the other and raises nothing. *)
Lemma for_each_steps names f :
  Forall (movable f) names →
  for_each (move_lib lib suffix) f names = Ok (foldl step f names).
Proof.
  revert f. induction names as [|m names IH]; intros f Hall; [done|].
  inversion Hall as [|? ? Hm Hrest]; subst. simpl.
  rewrite (move_lib_step _ _ Hm). apply IH.
  eapply Forall_impl; [exact Hrest|]. intros n Hn. by apply step_movable.
Qed.

Lemma steps_untouched names f (q : path) :
  Forall (fun n => q ≠ orig n ∧ q ≠ targ n) names →
  foldl step f names !! q = f !! q.
Proof.
  revert f. induction names as [|m names IH]; intros f Hall; [done|].
  inversion Hall as [|? ? [Hqo Hqt] Hrest]; subst. simpl.
  by rewrite (IH _ Hrest), step_lookup_other.
Qed.

Lemma steps_absent names f :
  Forall (fun n => f !! orig n = None) names → foldl step f names = f.
Proof.
  induction names as [|m names IH]; intros Hall; [done|].
  inversion Hall as [|? ? Hm Hrest]; subst. simpl.
  unfold rename_if_present at 2. rewrite Hm. by apply IH.
Qed.

Lemma touched_cons m names :
  touched suffix (m :: names)
  ≡ₚ (m +:+ suffix) :: (m +:+ ".lib") :: touched suffix names.
Proof.
  unfold touched. rewrite !fmap_cons. simpl.
  by rewrite <- Permutation_middle.
Qed.

Lemma touched_elem n names :
  n ∈ names →
  n +:+ suffix ∈ touched suffix names ∧ n +:+ ".lib" ∈ touched suffix names.
Proof.
  intros Hn. unfold touched. rewrite !elem_of_app, !list_elem_of_fmap.
  split; [left|right]; by exists n.
Qed.

(** With file names that are all different, each library ends up renamed
    or was not there. *)
Lemma steps_renamed names :
  NoDup (touched suffix names) →
  ∀ f n, n ∈ names → f !! orig n ≠ Some Dir →
    foldl step f names !! orig n = None
    ∧ foldl step f names !! targ n
      = match f !! orig n with
        | Some (File c) => Some (File c)
        | _ => f !! targ n
        end.
Proof.
  induction names as [|m names IH]; intros Hnd f n Hn Hdir.
  { by apply elem_of_nil in Hn. }
  rewrite touched_cons in Hnd.
  apply NoDup_cons in Hnd as [Hms Hnd]. apply NoDup_cons in Hnd as [Hml Hnd].
  assert (∀ k, k ∈ names →
            orig k ≠ orig m ∧ orig k ≠ targ m ∧ targ k ≠ orig m ∧ targ k ≠ targ m)
    as Hother.
  { intros k [Hks Hkl]%touched_elem.
    repeat split; intros Heq%join_inj; rewrite Heq in *;
      try done; apply Hms; by right. }
  assert (orig m ≠ targ m) as Hmm.
  { intros Heq%join_inj. apply Hms. rewrite Heq. by left. }
  simpl. apply elem_of_cons in Hn as [->|Hn].
  - assert (Forall (fun k => orig m ≠ orig k ∧ orig m ≠ targ k) names) as Ho.
    { apply Forall_forall. intros k (H1 & _ & H3 & _)%Hother.
      split; intros Heq; by symmetry in Heq. }
    assert (Forall (fun k => targ m ≠ orig k ∧ targ m ≠ targ k) names) as Ht.
    { apply Forall_forall. intros k (_ & H2 & _ & H4)%Hother.
      split; intros Heq; by symmetry in Heq. }
    rewrite (steps_untouched _ _ _ Ho), (steps_untouched _ _ _ Ht).
    unfold rename_if_present.
    destruct (f !! orig m) as [[c|]|] eqn:Hom; [|done|done].
    rewrite lookup_insert_eq, lookup_insert_ne, lookup_delete_eq; done.
  - destruct (Hother _ Hn) as (H1 & H2 & H3 & H4).
    destruct (IH Hnd (step f m) n Hn) as [Ho Ht].
    { by rewrite step_lookup_other. }
    rewrite Ho, Ht. by rewrite !step_lookup_other.
Qed.

End OneDirectory.

(** The eight file names of the bullet3 fix-up are all different. *)
Lemma bullet3_names_distinct : NoDup (touched "_Debug.lib" bullet3_lib_names).
Proof. apply (bool_decide_unpack _). by vm_compute. Qed.

(** C6: in a well-formed file system where none of the eight paths is a
    directory, [fix_bullet3] raises nothing; each library whose
    [_Debug.lib] file is there ends up under its [.lib] name with the
    same content and the [_Debug.lib] name is gone; for each library whose
    [_Debug.lib] file is not there nothing changes; and when none is there
    the file system is unchanged. *)
Theorem fix_bullet3_renames (f : fs) (p : path) :
  wf f →
  Forall (fun n =>
            f !! ((p ++ ["debug"] ++ ["lib"]) ++ [n +:+ "_Debug.lib"]) ≠ Some Dir
            ∧ f !! ((p ++ ["debug"] ++ ["lib"]) ++ [n +:+ ".lib"]) ≠ Some Dir)
         bullet3_lib_names →
  ∃ f', fix_bullet3 f p = Ok f'
    ∧ (∀ n c, n ∈ bullet3_lib_names →
         f !! ((p ++ ["debug"] ++ ["lib"]) ++ [n +:+ "_Debug.lib"]) = Some (File c) →
         f' !! ((p ++ ["debug"] ++ ["lib"]) ++ [n +:+ ".lib"]) = Some (File c)
         ∧ f' !! ((p ++ ["debug"] ++ ["lib"]) ++ [n +:+ "_Debug.lib"]) = None)
    ∧ (∀ n, n ∈ bullet3_lib_names →
         f !! ((p ++ ["debug"] ++ ["lib"]) ++ [n +:+ "_Debug.lib"]) = None →
         f' !! ((p ++ ["debug"] ++ ["lib"]) ++ [n +:+ ".lib"])
         = f !! ((p ++ ["debug"] ++ ["lib"]) ++ [n +:+ ".lib"])
         ∧ f' !! ((p ++ ["debug"] ++ ["lib"]) ++ [n +:+ "_Debug.lib"]) = None)
    ∧ (Forall (fun n =>
                 f !! ((p ++ ["debug"] ++ ["lib"]) ++ [n +:+ "_Debug.lib"]) = None)
              bullet3_lib_names → f' = f).
Proof.
  intros Hwf Hkinds.
  set (lib := p ++ ["debug"] ++ ["lib"]) in *.
  exists (foldl (rename_if_present lib "_Debug.lib") f bullet3_lib_names).
  split; [|split; [|split]].
  - unfold fix_bullet3. apply for_each_steps.
    eapply Forall_impl; [exact Hkinds|]. intros n [Ho Ht].
    repeat split; try done. intros [x Hx]. by eapply wf_parent.
  - intros n c Hn Hc.
    destruct (steps_renamed lib _ _ bullet3_names_distinct f n Hn) as [Ho Ht].
    { by rewrite Hc. }
    by rewrite Ho, Ht, Hc.
  - intros n Hn Hc.
    destruct (steps_renamed lib _ _ bullet3_names_distinct f n Hn) as [Ho Ht].
    { by rewrite Hc. }
    by rewrite Ho, Ht, Hc.
  - apply steps_absent.
Qed.

Lemma fix_bullet3_renames_witness :
  ∃ f', fix_bullet3 Sample.copied_bullet3 ["out"] = Ok f'
    ∧ f' !! ["out"; "debug"; "lib"; "BulletCollision.lib"] = Some (File "collision")
    ∧ f' !! ["out"; "debug"; "lib"; "BulletCollision_Debug.lib"] = None
    ∧ f' !! ["out"; "debug"; "lib"; "LinearMath.lib"] = Some (File "math").
Proof.
  destruct (fix_bullet3_renames Sample.copied_bullet3 ["out"])
    as (f' & Hrun & Hthere & Hgone & _).
  - apply (bool_decide_unpack _). by vm_compute.
  - apply (bool_decide_unpack _). by vm_compute.
  - exists f'. split; [exact Hrun|].
    destruct (Hthere "BulletCollision" "collision") as [H1 H2];
      [by repeat constructor|reflexivity|].
    destruct (Hgone "LinearMath") as [H3 _];
      [by repeat constructor|reflexivity|].
    split; [exact H1|]. split; [exact H2|]. exact (eq_trans H3 eq_refl).
Defined.

End FixFacts.

(** ** The copy action and the dependency filter *)

Module MainFacts.

Import Main.

(** The two [unlink] calls, on a file system where both manifest files
    are files. *)
Lemma unlink_both (f1 : fs) (ctl info : path) c b :
  ctl ≠ info →
  f1 !! ctl = Some (File c) → f1 !! info = Some (File b) →
  (f ← unlink f1 ctl; unlink f info) = Ok (delete info (delete ctl f1)).
Proof.
  intros Hne Hc Hb. unfold mbind, result_bind, Py.bind, unlink.
  by rewrite Hc, lookup_delete_ne, Hb.
Qed.

(** C4, as the code has it: after the staged package directories have been
    copied and the fix-ups applied, [CONTROL] and [BUILD_INFO] are deleted
    from the destination and nothing else changes, when both are files
    there; when [CONTROL] is missing, or [CONTROL] is a file and
    [BUILD_INFO] is missing, [FileNotFoundError] is raised. *)
Theorem copy_triplet_manifests (vcpkg_path output_path : path)
    (deps : list string) (f : fs) (t : Triplet) (f1 : fs) :
  copy_staged vcpkg_path output_path deps f t = Ok f1 →
  (∀ c b,
     f1 !! ((output_path ++ [TripletM.to_string t]) ++ ["CONTROL"]) = Some (File c) →
     f1 !! ((output_path ++ [TripletM.to_string t]) ++ ["BUILD_INFO"]) = Some (File b) →
     ∃ f2, copy_triplet vcpkg_path output_path deps f t = Ok f2
       ∧ f2 !! ((output_path ++ [TripletM.to_string t]) ++ ["CONTROL"]) = None
       ∧ f2 !! ((output_path ++ [TripletM.to_string t]) ++ ["BUILD_INFO"]) = None
       ∧ ∀ q, q ≠ (output_path ++ [TripletM.to_string t]) ++ ["CONTROL"] →
              q ≠ (output_path ++ [TripletM.to_string t]) ++ ["BUILD_INFO"] →
              f2 !! q = f1 !! q)
  ∧ (f1 !! ((output_path ++ [TripletM.to_string t]) ++ ["CONTROL"]) = None →
     copy_triplet vcpkg_path output_path deps f t = Raise FileNotFoundError)
  ∧ (∀ c,
     f1 !! ((output_path ++ [TripletM.to_string t]) ++ ["CONTROL"]) = Some (File c) →
     f1 !! ((output_path ++ [TripletM.to_string t]) ++ ["BUILD_INFO"]) = None →
     copy_triplet vcpkg_path output_path deps f t = Raise FileNotFoundError).
Proof.
  intros Hstaged. unfold copy_triplet. rewrite Hstaged.
  set (dst := output_path ++ [TripletM.to_string t]).
  assert (dst ++ ["CONTROL"] ≠ dst ++ ["BUILD_INFO"]) as Hne.
  { by intros Heq%FixFacts.join_inj. }
  change (Ok f1 ≫= _)
    with (f ← unlink f1 (dst ++ ["CONTROL"]); unlink f (dst ++ ["BUILD_INFO"])).
  split; [|split].
  - intros c b Hc Hb. eexists. split; [by eapply unlink_both|].
    split; [|split].
    + by rewrite lookup_delete_ne, lookup_delete_eq.
    + by rewrite lookup_delete_eq.
    + intros q Hqc Hqb. by rewrite !lookup_delete_ne.
  - intros Hc. unfold mbind, result_bind, Py.bind, unlink. by rewrite Hc.
  - intros c Hc Hb. unfold mbind, result_bind, Py.bind, unlink.
    by rewrite Hc, lookup_delete_ne, Hb.
Qed.

Lemma copy_triplet_manifests_witness :
  ∃ f2, copy_triplet ["vc"] ["out"] ["glm"] Sample.staged X86_WINDOWS_DYNAMIC = Ok f2
    ∧ f2 !! ["out"; "x86-windows"; "CONTROL"] = None
    ∧ f2 !! ["out"; "x86-windows"; "BUILD_INFO"] = None.
Proof.
  destruct (copy_triplet_manifests ["vc"] ["out"] ["glm"] Sample.staged
              X86_WINDOWS_DYNAMIC _ eq_refl) as (Hboth & _ & _).
  destruct (Hboth "Source: glm" "CRTLinkage: dynamic")
    as (f2 & Hrun & Hc & Hb & _).
  - by vm_compute.
  - by vm_compute.
  - exists f2. split; [exact Hrun|]. split; [exact Hc|exact Hb].
Defined.

(** C4, as the claim has it, fails: with a staged package that has no
    [BUILD_INFO] the file is missing at delete time, and the copy action
    raises [FileNotFoundError]. *)
Lemma copy_triplet_missing_manifest_raises :
  (∃ f1, copy_staged ["vc"] ["out"] ["glm"] Sample.staged_without_build_info
           X86_WINDOWS_DYNAMIC = Ok f1
         ∧ f1 !! ["out"; "x86-windows"; "BUILD_INFO"] = None)
  ∧ copy_triplet ["vc"] ["out"] ["glm"] Sample.staged_without_build_info
      X86_WINDOWS_DYNAMIC = Raise FileNotFoundError.
Proof.
  split; [eexists; split; [reflexivity|]|]; by vm_compute.
Qed.

(** The value of [-w] is stored as it is given: the list of the one
    string. *)
Lemma parse_what_given s : Cli.parse_what (Some s) = Ok (Cli.AList [s]).
Proof. reflexivity. Qed.

Lemma resolve_what_given s :
  Cli.iter (Cli.resolve_what (Cli.AList [s])) = [s].
Proof. reflexivity. Qed.

(** Without [-w] the dependencies are the built-in registry. *)
Lemma resolve_what_default :
  Cli.parse_what None = Ok (Cli.AList [])
  ∧ Cli.iter (Cli.resolve_what (Cli.AList [])) = Cli.DEPENDENCIES.
Proof. split; reflexivity. Qed.

(** C8, at the failing input: with [-w bullet3,glm] the build action
    runs one install, for the dependency named "bullet3,glm"; the value
    of [-w] is never split at its commas. Without [-w] the dependencies
    are bullet3, glm, ffmpeg, openal-soft and sdl2. *)
Theorem what_is_not_split :
  (∃ o, Cli.parse_args Sample.argv_two_deps = Ok o
        ∧ Cli.iter (Cli.resolve_what (Cli.what o)) = ["bullet3,glm"]
        ∧ deps_build (fun _ => 0%Z) ["vc"] o
          = Ok [["vc\vcpkg.exe"; "install"; "bullet3,glm"; "--triplet";
                 "x86-windows"]])
  ∧ (∀ s, ∃ v, Cli.parse_what (Some s) = Ok v
               ∧ Cli.iter (Cli.resolve_what v) = [s])
  ∧ (∃ o, Cli.parse_args Sample.argv_no_deps = Ok o
          ∧ Cli.iter (Cli.resolve_what (Cli.what o))
            = ["bullet3"; "glm"; "ffmpeg"; "openal-soft"; "sdl2"]).
Proof.
  split; [|split].
  - eexists. split; [reflexivity|]. split; reflexivity.
  - intros s. exists (Cli.AList [s]). split; reflexivity.
  - eexists. split; reflexivity.
Qed.

End MainFacts.

(** ** More on the triplet *)

Module TripletMore.

Import Str StrFacts TripletM TripletFacts.

(** X1: [__eq__] is not an equivalence: a triplet equals itself exactly
    when its system is its architecture; it is transitive; and nothing
    that is not a triplet equals a triplet. *)
Theorem eq_reflexive_iff (t1 t2 t3 : Triplet) (s : string) :
  (eq t1 (OTriplet t1) = true ↔ system t1 = arch t1)
  ∧ (eq t1 (OTriplet t2) = true → eq t2 (OTriplet t3) = true →
     eq t1 (OTriplet t3) = true)
  ∧ eq t1 (OStr s) = false ∧ eq t1 ONone = false.
Proof.
  split; [|split; [|done]].
  - rewrite eq_spec. split; [by intros (_ & Hs & _)|by intros ->].
  - rewrite !eq_spec. intros (-> & -> & ->) (-> & _ & ->). done.
Qed.

Lemma eq_reflexive_iff_witness :
  eq (mkTriplet "x86" "x86" "static") (OTriplet (mkTriplet "x86" "uwp" "static")) = true.
Proof.
  apply (proj1 (proj2 (eq_reflexive_iff (mkTriplet "x86" "x86" "static")
                         (mkTriplet "x86" "x86" "static")
                         (mkTriplet "x86" "uwp" "static") "")));
    reflexivity.
Defined.

(** X2: equal triplets need not hash alike: when [t1 == t2] holds, the
    two hashes returned by [__hash__] are the same exactly when the
    architecture and the system of [t2] have the same string hash. *)
Theorem eq_hash_contract (hash_str : string → Z) (t1 t2 : Triplet) :
  eq t1 (OTriplet t2) = true →
  (hash_method hash_str t1 = hash_method hash_str t2
   ↔ hash_str (arch t2) = hash_str (system t2)).
Proof.
  intros (Ha & Hs & Hl)%eq_spec. unfold hash_method.
  rewrite Ha, Hs, Hl, Z.lxor_nilpotent, Z.lxor_0_l. split.
  - intros Heq.
    apply (f_equal (fun z => Z.lxor z (hash_str (linkage t2)))) in Heq.
    rewrite Z.lxor_nilpotent, Z.lxor_assoc, Z.lxor_nilpotent, Z.lxor_0_r in Heq.
    symmetry in Heq. by apply Z.lxor_eq in Heq.
  - intros ->. by rewrite Z.lxor_nilpotent, Z.lxor_0_l.
Qed.

Lemma eq_hash_contract_witness :
  hash_method (fun s => Z.of_nat (String.length s)) (mkTriplet "x86" "x86" "static")
  ≠ hash_method (fun s => Z.of_nat (String.length s)) (mkTriplet "x86" "windows" "static").
Proof.
  intros Heq.
  apply (eq_hash_contract (fun s => Z.of_nat (String.length s))
           (mkTriplet "x86" "x86" "static")
           (mkTriplet "x86" "windows" "static") eq_refl) in Heq.
  vm_compute in Heq. discriminate Heq.
Defined.

(** What parsing gives for a printed triplet. *)
Lemma from_string_of_printed (t : Triplet) :
  lacks dash (arch t) = true → lacks dash (system t) = true →
  from_string (to_string t)
  = Ok (mkTriplet (arch t) (system t)
          (if String.eqb (linkage t) "static" then "static" else "dynamic"))
  ∧ (linkage t = "static" ∨ linkage t = "dynamic" →
     from_string (to_string t) = Ok t).
Proof.
  intros Ha Hs.
  assert (from_string (to_string t)
          = Ok (mkTriplet (arch t) (system t)
                  (if String.eqb (linkage t) "static" then "static"
                   else "dynamic"))) as Hrt.
  { unfold to_string. destruct (String.eqb_spec (linkage t) "static") as [->|_].
    - apply (from_string_parts _ _ _ _ []).
      by rewrite (split_three _ _ _ Ha Hs).
    - apply from_string_two_parts. by apply split_two. }
  split; [done|]. rewrite Hrt. destruct t as [a sy l]. simpl.
  by intros [-> | ->].
Qed.

(** X3: parsing what [__str__] printed: for a triplet whose architecture
    and system have no dash, [from_string(str(t))] succeeds and gives back
    the architecture and the system, with the linkage "static" when it was
    "static" and "dynamic" in every other case; so it gives back [t]
    itself when the linkage is "static" or "dynamic". *)
Theorem from_string_to_string (t : Triplet) :
  lacks dash (arch t) = true → lacks dash (system t) = true →
  from_string (to_string t)
  = Ok (mkTriplet (arch t) (system t)
          (if String.eqb (linkage t) "static" then "static" else "dynamic"))
  ∧ (linkage t = "static" ∨ linkage t = "dynamic" →
     from_string (to_string t) = Ok t).
Proof. apply from_string_of_printed. Qed.

Lemma from_string_to_string_witness :
  from_string (to_string X64_WINDOWS_STATIC) = Ok X64_WINDOWS_STATIC.
Proof.
  apply (from_string_to_string X64_WINDOWS_STATIC); [reflexivity..|by left].
Defined.

(** When and how [from_string] fails. *)
Lemma from_string_failure (s : string) :
  (from_string s = Raise IndexError ↔ lacks dash s = true)
  ∧ (∀ e, from_string s = Raise e → e = IndexError)
  ∧ (lacks dash s = false → ∃ t, from_string s = Ok t).
Proof.
  assert (lacks dash s = false → ∃ t, from_string s = Ok t) as Hok.
  { intros Hdash.
    assert (¬ (length (split_char dash s) < 2)%nat) as Hlen.
    { rewrite one_component. congruence. }
    destruct (split_char dash s) as [|a [|sy [|l rest]]] eqn:Hs;
      simpl in Hlen; try lia.
    - eexists. by apply from_string_two_parts.
    - eexists. by apply (from_string_parts s a sy l rest). }
  split; [|split; [|done]].
  - split.
    + intros Hraise. destruct (lacks dash s) eqn:Hdash; [done|].
      destruct (Hok eq_refl) as [t Ht]. congruence.
    + intros Hdash. apply from_string_one_part. by apply one_component.
  - intros e. apply InstalledFacts.from_string_raises.
Qed.

(** X4: [from_string] fails exactly on the strings with no dash, always
    with [IndexError]; every string with a dash gives a triplet. *)
Theorem from_string_fails_iff (s : string) :
  (from_string s = Raise IndexError ↔ lacks dash s = true)
  ∧ (∀ e, from_string s = Raise e → e = IndexError)
  ∧ (lacks dash s = false → ∃ t, from_string s = Ok t).
Proof. apply from_string_failure. Qed.

Lemma from_string_fails_iff_witness :
  ∃ t, from_string "x64-" = Ok t.
Proof. apply (from_string_fails_iff "x64-"). reflexivity. Defined.

(** The members and the length of the list of triplets. *)
Lemma make_triplets_members (archs systems linkages : list string) :
  (∀ t, t ∈ make_triplets archs systems linkages
        ↔ arch t ∈ archs ∧ system t ∈ systems ∧ linkage t ∈ linkages)
  ∧ length (make_triplets archs systems linkages)
    = (length archs * length systems * length linkages)%nat.
Proof.
  split.
  - intros t. unfold make_triplets. rewrite list_elem_of_bind. split.
    + intros (a & (sy & (l & Ht & Hl)%list_elem_of_bind & Hsy)%list_elem_of_bind & Ha).
      apply list_elem_of_singleton in Ht as ->. done.
    + intros (Ha & Hsy & Hl). exists (arch t). split; [|done].
      apply list_elem_of_bind. exists (system t). split; [|done].
      apply list_elem_of_bind. exists (linkage t). split; [|done].
      destruct t. apply list_elem_of_singleton. done.
  - unfold make_triplets.
    assert (∀ a sy, length (l ← linkages; [mkTriplet a sy l]) = length linkages)
      as Hl.
    { intros a sy. induction linkages as [|l ls IH]; [done|].
      by rewrite bind_cons, length_app, IH. }
    assert (∀ a, length (sy ← systems; l ← linkages; [mkTriplet a sy l])
                 = (length systems * length linkages)%nat) as Hs.
    { intros a. induction systems as [|sy ss IH]; [done|].
      rewrite bind_cons, length_app, Hl, IH. simpl. lia. }
    induction archs as [|a as_ IH]; [done|].
    rewrite bind_cons, length_app, Hs, IH. simpl. lia.
Qed.

(** X5: the triplet loop builds the whole product and nothing else: a
    triplet is in the list exactly when each of its fields is in the list
    it was taken from, and the list has as many elements as the product
    of the three lengths. *)
Theorem make_triplets_product (archs systems linkages : list string) :
  (∀ t, t ∈ make_triplets archs systems linkages
        ↔ arch t ∈ archs ∧ system t ∈ systems ∧ linkage t ∈ linkages)
  ∧ length (make_triplets archs systems linkages)
    = (length archs * length systems * length linkages)%nat.
Proof. apply make_triplets_members. Qed.

End TripletMore.

(** ** More on the command line *)

Module CliMore.

Import Str StrFacts Cli.

Lemma in_choices v (choices : list string) :
  existsb (String.eqb v) choices = true ↔ v ∈ choices.
Proof.
  rewrite existsb_exists, list_elem_of_In. split.
  - by intros (x & Hx & ->%String.eqb_eq).
  - intros Hv. exists v. by rewrite String.eqb_refl.
Qed.

Lemma all_in_choices (values choices : list string) :
  forallb (fun value => existsb (String.eqb value) choices) values = true
  ↔ Forall (fun v => v ∈ choices) values.
Proof.
  rewrite forallb_forall, Forall_forall. split.
  - intros Hall v Hv. apply in_choices, Hall. by apply list_elem_of_In.
  - intros Hall v Hv. apply in_choices, Hall. by apply list_elem_of_In.
Qed.

(** The two outcomes of an option with choices. *)
Lemma CommaSplitter_cases (choices : list string) (s : string) :
  choices ≠ [] →
  (Forall (fun v => v ∈ choices) (split_char comma s) →
   CommaSplitter_call choices (AStr s) = Ok (AList (split_char comma s)))
  ∧ (¬ Forall (fun v => v ∈ choices) (split_char comma s) →
     CommaSplitter_call choices (AStr s) = Raise (SystemExit 2))
  ∧ (∀ v, CommaSplitter_call choices (AStr s) = Ok v →
          join_char comma (iter v) = s
          ∧ Forall (fun x => x ∈ choices) (iter v)).
Proof.
  intros Hne. destruct choices as [|c choices]; [done|].
  unfold CommaSplitter_call.
  destruct (forallb _ (split_char comma s)) eqn:Hall.
  - apply all_in_choices in Hall. split; [done|]. split; [done|].
    intros v [= <-]. split; [apply join_split_char|done].
  - split; [|split; [done|done]].
    intros Hin%all_in_choices. congruence.
Qed.

(** X6: an option with choices is accepted exactly when every
    comma-separated component of its argument is one of the choices; the
    stored list is then the list of the components, which joined with
    commas give the argument back; otherwise the parser exits with
    status 2. *)
Theorem CommaSplitter_choices (choices : list string) (s : string) :
  choices ≠ [] →
  (Forall (fun v => v ∈ choices) (split_char comma s) →
   CommaSplitter_call choices (AStr s) = Ok (AList (split_char comma s)))
  ∧ (¬ Forall (fun v => v ∈ choices) (split_char comma s) →
     CommaSplitter_call choices (AStr s) = Raise (SystemExit 2))
  ∧ (∀ v, CommaSplitter_call choices (AStr s) = Ok v →
          join_char comma (iter v) = s
          ∧ Forall (fun x => x ∈ choices) (iter v)).
Proof. apply CommaSplitter_cases. Qed.

Lemma CommaSplitter_choices_witness :
  CommaSplitter_call ["arm"; "x64"; "x86"] (AStr "x86,x64")
  = Ok (AList ["x86"; "x64"])
  ∧ CommaSplitter_call ["arm"; "x64"; "x86"] (AStr "x86,") = Raise (SystemExit 2).
Proof.
  split.
  - apply (CommaSplitter_choices ["arm"; "x64"; "x86"] "x86,x64"); [done|].
    apply all_in_choices. reflexivity.
  - apply (proj1 (proj2 (CommaSplitter_choices ["arm"; "x64"; "x86"] "x86,"
                           ltac:(done)))).
    intros Hin%all_in_choices. vm_compute in Hin. discriminate Hin.
Defined.

Lemma parse_choice_in (default choices : list string) o v :
  choices ≠ [] → Forall (fun x => x ∈ choices) default →
  parse_choice default choices o = Ok v →
  Forall (fun x => x ∈ choices) (iter v).
Proof.
  intros Hne Hdef. destruct o as [s|]; simpl.
  - intros Hv. by apply (CommaSplitter_cases choices s Hne).
  - by intros [= <-].
Qed.

(** X7: every triplet that the parsed options give has its architecture
    among arm, x64, x86, its system among windows, uwp and its linkage
    among dynamic, static; and printing such a triplet and parsing the
    result gives the triplet back. *)
Theorem parse_args_triplets (a : argv) (o : options) :
  parse_args a = Ok o →
  ∀ t, t ∈ triplets_of o →
    arch t ∈ ["arm"; "x64"; "x86"]
    ∧ system t ∈ ["windows"; "uwp"]
    ∧ linkage t ∈ ["dynamic"; "static"]
    ∧ TripletM.from_string (TripletM.to_string t) = Ok t.
Proof.
  unfold parse_args. destruct (parse_what (opt_w a)) as [w|e]; [|done].
  destruct (parse_choice default_arch _ (opt_a a)) as [ar|e] eqn:Har; [|done].
  destruct (parse_choice default_system _ (opt_s a)) as [sy|e] eqn:Hsy; [|done].
  destruct (parse_choice default_linkage _ (opt_l a)) as [li|e] eqn:Hli; [|done].
  intros [= <-] t. unfold triplets_of. simpl.
  intros (Ha & Hs & Hl)%TripletMore.make_triplets_members.
  apply parse_choice_in in Har; [|done|by repeat constructor].
  apply parse_choice_in in Hsy; [|done|by repeat constructor].
  apply parse_choice_in in Hli; [|done|by repeat constructor].
  rewrite Forall_forall in Har, Hsy, Hli.
  specialize (Har _ Ha). specialize (Hsy _ Hs). specialize (Hli _ Hl).
  repeat split; try done.
  apply TripletMore.from_string_of_printed.
  - revert Har. rewrite !elem_of_cons, elem_of_nil. by intros [->|[->|[->|[]]]].
  - revert Hsy. rewrite !elem_of_cons, elem_of_nil. by intros [->|[->|[]]].
  - revert Hli. rewrite !elem_of_cons, elem_of_nil. intros [->|[->|[]]]; auto.
Qed.

Lemma parse_args_triplets_witness :
  TripletM.from_string (TripletM.to_string X86_WINDOWS_DYNAMIC)
  = Ok X86_WINDOWS_DYNAMIC.
Proof.
  apply (parse_args_triplets Sample.argv_no_deps _ eq_refl X86_WINDOWS_DYNAMIC).
  by repeat constructor.
Defined.

End CliMore.

(** ** More on the list of installed packages *)

Module InstalledMore.

Import Str StrFacts TripletM Installed InstalledFacts Plan.

Lemma shaped_matches line :
  matches_shape line ↔ ∃ name trip version, shaped line name trip version.
Proof.
  unfold matches_shape, shaped. split.
  - intros (lead & name & trip & ws1 & v & ws2 & d & H).
    by exists name, trip, v, lead, ws1, ws2, d.
  - intros (name & trip & v & lead & ws1 & ws2 & d & H).
    by exists lead, name, trip, ws1, v, ws2, d.
Qed.

(** The fields of a line that has the shape. *)
Lemma parse_line_shaped (line name trip version : string) :
  shaped line name trip version →
  parse_line line = (t ← from_string trip; Ok (name, t, version)).
Proof.
  intros (lead & ws1 & ws2 & d & -> & Hlead & Hn1 & Hname & Hn2 & Htrip
          & Hws1 & Haws1 & Hv & Hnv & Hws2 & Haws2 & Hd & Hsd).
  unfold parse_line.
  assert (split_ws_max2
            (lead +:+ name +:+ ":" +:+ trip +:+ ws1 +:+ version +:+ ws2 +:+ d)
          = [name +:+ String colon trip; version; d]) as ->.
  { apply split_ws_max2_three. exists lead, ws1, ws2.
    repeat split; try done.
    - by rewrite append_assoc.
    - by destruct name.
    - rewrite no_space_app. simpl. by rewrite Hn1, Hn2. }
  assert (split_char colon (name +:+ String colon trip) = [name; trip]) as ->.
  { by apply split_char_two. }
  done.
Qed.

(** A line whose parsing raises [IndexError] is no line of the listing:
    its triplet field has no dash. *)
Lemma raising_line_not_listing line :
  parse_line line = Raise IndexError → ¬ listing_line line.
Proof.
  intros Hp (name & trip & version & Hshaped & _ & a & sy & Ha & Hsy & Htrip).
  rewrite (parse_line_shaped _ _ _ _ Hshaped) in Hp.
  assert (lacks dash trip = true) as Hdash.
  { apply TripletMore.from_string_failure.
    unfold mbind, result_bind, Py.bind in Hp.
    destruct (from_string trip) as [t|e]; congruence. }
  destruct Htrip as [->|(l & Hl & ->)];
    rewrite !lacks_app in Hdash; simpl in Hdash;
    by rewrite andb_false_r in Hdash.
Qed.

Lemma add_line_raises hash_str hash_tuple nv line :
  parse_line line = Raise IndexError →
  add_line hash_str hash_tuple nv line = Raise IndexError.
Proof. intros Hp. unfold add_line. by rewrite Hp. Qed.

(** C3, at the failing input: the line
    "zlib:x64-windows 1.2.11 compression" is a line of the listing and
    gives the mapping of "zlib" to the set of the one pair (x64-windows
    with the linkage "dynamic", "1.2.11"); but the lines
    "glm:x64 0.9.9 mathematics" and "warning: foo bar" are no lines of the
    listing (the part after the colon is no triplet) and are not skipped:
    [from_string] raises [IndexError], the handler catches [ValueError]
    only, and the whole listing fails. *)
Theorem list_installed_bad_triplet_raises (hash_str : string → Z)
    (hash_tuple : Z → Z → Z) :
  listing_line "zlib:x64-windows 1.2.11 compression"
  ∧ list_installed hash_str hash_tuple "zlib:x64-windows 1.2.11 compression"
    = Ok {[ "zlib" := [(X64_WINDOWS_DYNAMIC, "1.2.11")] ]}
  ∧ ¬ listing_line "glm:x64 0.9.9 mathematics"
  ∧ (∀ nv, add_line hash_str hash_tuple nv "glm:x64 0.9.9 mathematics"
           = Raise IndexError)
  ∧ ¬ listing_line "warning: foo bar"
  ∧ (∀ nv, add_line hash_str hash_tuple nv "warning: foo bar"
           = Raise IndexError)
  ∧ list_installed hash_str hash_tuple
      ("zlib:x64-windows 1.2.11 compression"
       +:+ String "013" (String "010" "glm:x64 0.9.9 mathematics"))
    = Raise IndexError.
Proof.
  split; [|split; [reflexivity|]].
  { exists "zlib", "x64-windows", "1.2.11". split; [|split; [done|]].
    - exists "", " ", " ", "compression". repeat split; done.
    - exists "x64", "windows". repeat split; try done. by left. }
  split; [by apply raising_line_not_listing|].
  split; [intros nv; by apply add_line_raises|].
  split; [by apply raising_line_not_listing|].
  split; [intros nv; by apply add_line_raises|].
  reflexivity.
Qed.

(** X8: of a line of the shape [name:triplet version description] only the
    three fields count: the result is the name, the parsed triplet and the
    version, whatever the white space and the description are, and the
    line fails exactly as the parsing of its triplet does. *)
Theorem parse_line_fields (line name trip version : string) :
  shaped line name trip version →
  parse_line line = (t ← from_string trip; Ok (name, t, version)).
Proof. apply parse_line_shaped. Qed.

Lemma parse_line_fields_witness :
  parse_line "  zlib:x64-windows-static   1.2.11#3  A compression library "
  = (t ← from_string "x64-windows-static"; Ok ("zlib", t, "1.2.11#3")).
Proof.
  apply (parse_line_fields _ "zlib" "x64-windows-static" "1.2.11#3").
  exists "  ", "   ", "  ", "A compression library ".
  repeat split; try done.
Defined.

(** X9: a line that does not have the shape counts for nothing, wherever
    it stands among the lines: the result, a mapping or an exception, is
    that of the same lines without it. *)
Theorem add_lines_skips (hash_str : string → Z) (hash_tuple : Z → Z → Z)
    (nv : gmap string (list entry)) (before after : list string) (line : string) :
  ¬ matches_shape line →
  add_lines hash_str hash_tuple nv (before ++ line :: after)
  = add_lines hash_str hash_tuple nv (before ++ after).
Proof.
  intros Hshape. revert nv.
  induction before as [|l before IH]; intros nv; simpl.
  - by rewrite (add_line_skips _ _ _ _ Hshape).
  - destruct (add_line hash_str hash_tuple nv l) as [nv'|e]; [|done].
    apply IH.
Qed.

Lemma add_lines_skips_witness :
  list_installed (fun _ => 0%Z) (fun _ _ => 0%Z)
    ("zlib:x64-windows 1.2.11 compression" +:+ String "013" (String "010" ""))
  = list_installed (fun _ => 0%Z) (fun _ _ => 0%Z)
      "zlib:x64-windows 1.2.11 compression".
Proof.
  apply (add_lines_skips (fun _ => 0%Z) (fun _ _ => 0%Z) ∅
           ["zlib:x64-windows 1.2.11 compression"] [] "").
  intros Hshape%unpacks_shape. vm_compute in Hshape. discriminate Hshape.
Defined.

Lemma add_line_cases hash_str hash_tuple nv line :
  match parse_line line with
  | Ok (name, t, v) =>
      add_line hash_str hash_tuple nv line
      = Ok (<[name := set_add hash_str hash_tuple (default [] (nv !! name)) (t, v)]> nv)
  | Raise ValueError => add_line hash_str hash_tuple nv line = Ok nv
  | Raise e => add_line hash_str hash_tuple nv line = Raise e
  end.
Proof.
  unfold add_line.
  destruct (parse_line line) as [[[name t] v]|e]; [done|]. by destruct e.
Qed.

(** X10: when the listing succeeds, the names it maps are the names that
    were there and the names of the lines that were accepted, and no
    stored pair is ever dropped: what was stored under a name is a prefix
    of what is stored under it afterwards. *)
Theorem add_lines_names (hash_str : string → Z) (hash_tuple : Z → Z → Z)
    (lines : list string) (nv nv' : gmap string (list entry)) :
  add_lines hash_str hash_tuple nv lines = Ok nv' →
  dom nv' = dom nv ∪ list_to_set (parsed_names lines)
  ∧ ∀ name, default [] (nv !! name) `prefix_of` default [] (nv' !! name).
Proof.
  revert nv. induction lines as [|line lines IH]; intros nv; simpl.
  - intros [= <-]. split; [set_solver|done].
  - pose proof (add_line_cases hash_str hash_tuple nv line) as Hcase.
    unfold parsed_names. simpl. fold (parsed_names lines).
    destruct (parse_line line) as [[[name t] v]|e].
    + rewrite Hcase. intros [Hdom Hpre]%IH. split.
      * rewrite Hdom, dom_insert_L. set_solver.
      * intros n. etrans; [|apply Hpre].
        destruct (decide (n = name)) as [->|Hn].
        -- rewrite lookup_insert_eq. simpl. unfold set_add.
           destruct (existsb _ _); [done|]. by apply prefix_app_r.
        -- by rewrite lookup_insert_ne.
    + destruct e; rewrite Hcase; try done. apply IH.
Qed.

Lemma add_lines_names_witness :
  dom ({["zlib" := [(X64_WINDOWS_DYNAMIC, "1.2.11")]]} : gmap string (list entry))
  = dom (∅ : gmap string (list entry))
    ∪ list_to_set (parsed_names ["zlib:x64-windows 1.2.11 compression"]).
Proof.
  apply (add_lines_names (fun _ => 0%Z) (fun _ _ => 0%Z)
           ["zlib:x64-windows 1.2.11 compression"] ∅).
  reflexivity.
Defined.

(** X11: the per-name sets do not behave as sets: when no stored triplet
    has its system equal to its architecture, [add] appends the pair
    whether or not the same pair is stored already. *)
Theorem set_add_appends (hash_str : string → Z) (hash_tuple : Z → Z → Z)
    (s : list entry) (e : entry) :
  Forall (fun x => system x.1 ≠ arch x.1) s →
  set_add hash_str hash_tuple s e = s ++ [e].
Proof.
  intros Hall. unfold set_add.
  assert (existsb (fun x => (entry_hash hash_str hash_tuple x
                             =? entry_hash hash_str hash_tuple e)%Z
                            && entry_eq x e) s = false) as ->; [|done].
  apply not_true_is_false. intros (x & Hx & Heq)%existsb_exists.
  apply list_elem_of_In in Hx. rewrite Forall_forall in Hall.
  apply andb_true_iff in Heq as [_ Heq]. unfold entry_eq in Heq.
  apply andb_true_iff in Heq as [Heq _].
  apply TripletFacts.eq_spec in Heq as (Ha & Hs & _).
  apply (Hall _ Hx). congruence.
Qed.

Lemma set_add_appends_witness :
  set_add (fun _ => 0%Z) (fun _ _ => 0%Z)
    [(X64_WINDOWS_DYNAMIC, "1.2.11")] (X64_WINDOWS_DYNAMIC, "1.2.11")
  = [(X64_WINDOWS_DYNAMIC, "1.2.11"); (X64_WINDOWS_DYNAMIC, "1.2.11")].
Proof.
  apply (set_add_appends _ _ [(X64_WINDOWS_DYNAMIC, "1.2.11")]).
  by repeat constructor.
Defined.

(** X12: the listing raises exactly when some line has the shape and a
    triplet field with no dash; what it raises is then the [IndexError] of
    [from_string], which the handler for [ValueError] lets through. *)
Theorem add_lines_raises (hash_str : string → Z) (hash_tuple : Z → Z → Z)
    (lines : list string) (nv : gmap string (list entry)) :
  (∀ e, add_lines hash_str hash_tuple nv lines = Raise e → e = IndexError)
  ∧ (add_lines hash_str hash_tuple nv lines = Raise IndexError
     ↔ ∃ line name trip version,
         line ∈ lines ∧ shaped line name trip version
         ∧ lacks dash trip = true).
Proof.
  revert nv. induction lines as [|line lines IH]; intros nv.
  { split; [done|]. split; [done|].
    intros (line & ? & ? & ? & Hin & _). by apply elem_of_nil in Hin. }
  assert (parse_line line = Raise IndexError
          ↔ ∃ name trip version,
              shaped line name trip version ∧ lacks dash trip = true)
    as Hline.
  { split.
    - intros Hp.
      assert (unpacks line = true) as Hu.
      { destruct (unpacks line) eqn:Hu; [done|].
        apply parse_line_unpacks in Hu. congruence. }
      apply unpacks_shape, shaped_matches in Hu
        as (name & trip & version & Hshaped).
      exists name, trip, version. split; [done|].
      rewrite (parse_line_shaped _ _ _ _ Hshaped) in Hp.
      apply TripletMore.from_string_failure.
      unfold mbind, result_bind, Py.bind in Hp.
      destruct (from_string trip) as [t|e]; congruence.
    - intros (name & trip & version & Hshaped & Hdash).
      rewrite (parse_line_shaped _ _ _ _ Hshaped).
      apply TripletMore.from_string_failure in Hdash. by rewrite Hdash. }
  assert (∀ e, parse_line line = Raise e → e = ValueError ∨ e = IndexError)
    as Hkinds.
  { intros e He. destruct (unpacks line) eqn:Hu.
    - right. apply unpacks_shape, shaped_matches in Hu
        as (name & trip & version & Hshaped).
      rewrite (parse_line_shaped _ _ _ _ Hshaped) in He.
      unfold mbind, result_bind, Py.bind in He.
      destruct (from_string trip) as [t|e'] eqn:Ht; [done|].
      apply from_string_raises in Ht as ->. congruence.
    - left. apply parse_line_unpacks in Hu. congruence. }
  pose proof (add_line_cases hash_str hash_tuple nv line) as Hcase.
  simpl. destruct (parse_line line) as [[[name t] v]|e] eqn:Hp.
  - rewrite Hcase. simpl. destruct (IH (<[name:=set_add hash_str hash_tuple
                                       (default [] (nv !! name)) (t, v)]> nv))
      as [IH1 IH2].
    split; [exact IH1|]. rewrite IH2. split.
    + intros (l & n & tr & ver & Hin & H). exists l, n, tr, ver.
      split; [by right|done].
    + intros (l & n & tr & ver & [->|Hin]%elem_of_cons & Hsh & Hdash).
      * exfalso.
        assert (Habs := proj2 Hline
                  (ex_intro _ n (ex_intro _ tr (ex_intro _ ver (conj Hsh Hdash))))).
        discriminate Habs.
      * by exists l, n, tr, ver.
  - destruct (Hkinds e eq_refl) as [-> | ->]; rewrite Hcase; simpl.
    + destruct (IH nv) as [IH1 IH2]. split; [exact IH1|]. rewrite IH2. split.
      * intros (l & n & tr & ver & Hin & H). exists l, n, tr, ver.
        split; [by right|done].
      * intros (l & n & tr & ver & [->|Hin]%elem_of_cons & Hsh & Hdash).
        -- exfalso.
           assert (Habs := proj2 Hline
                     (ex_intro _ n (ex_intro _ tr (ex_intro _ ver (conj Hsh Hdash))))).
           discriminate Habs.
        -- by exists l, n, tr, ver.
    + split; [by intros e [= <-]|]. split; [|done]. intros _.
      destruct (proj1 Hline eq_refl) as (n & tr & ver & Hsh & Hdash).
      exists line, n, tr, ver. split; [by left|done].
Qed.

Lemma add_lines_raises_witness :
  add_lines (fun _ => 0%Z) (fun _ _ => 0%Z) ∅
    ["zlib:x64-windows 1.2.11 compression"; "glm:x64 0.9.9 mathematics"]
  = Raise IndexError.
Proof.
  apply (add_lines_raises (fun _ => 0%Z) (fun _ _ => 0%Z)).
  exists "glm:x64 0.9.9 mathematics", "glm", "x64", "0.9.9".
  split; [by repeat constructor|]. split; [|done].
  exists "", " ", " ", "mathematics". repeat split; done.
Defined.

Lemma split_crlf_none s : has_crlf s = false → split_crlf s = [s].
Proof.
  induction s as [|c s IH]; [done|].
  destruct s as [|c' s]; [done|].
  intros [Hcc Hs]%orb_false_iff.
  change (split_crlf (String c (String c' s)))
    with (if Ascii.eqb c "013"%char && Ascii.eqb c' "010"%char
          then EmptyString :: split_crlf s
          else match split_crlf (String c' s) with
               | [] => [String c EmptyString]
               | w :: ws => String c w :: ws
               end).
  by rewrite Hcc, (IH Hs).
Qed.

(** X13: only a carriage return followed by a line feed ends a line: an
    output without one is read as a single line, so that at most one
    package is listed, whatever line feeds the output has. *)
Theorem list_installed_single_line (hash_str : string → Z)
    (hash_tuple : Z → Z → Z) (output : string) :
  has_crlf output = false →
  list_installed hash_str hash_tuple output
  = add_line hash_str hash_tuple ∅ output
  ∧ ∀ nv, list_installed hash_str hash_tuple output = Ok nv → (size nv ≤ 1)%nat.
Proof.
  intros Hcrlf. unfold list_installed. rewrite (split_crlf_none _ Hcrlf).
  assert (add_lines hash_str hash_tuple ∅ [output]
          = add_line hash_str hash_tuple ∅ output) as ->.
  { simpl. by destruct (add_line hash_str hash_tuple ∅ output). }
  split; [done|]. intros nv.
  pose proof (add_line_cases hash_str hash_tuple ∅ output) as Hcase.
  destruct (parse_line output) as [[[name t] v]|e].
  - rewrite Hcase. intros [= <-]. rewrite insert_empty, map_size_singleton. lia.
  - destruct e; rewrite Hcase; try done. intros [= <-]. rewrite map_size_empty. lia.
Qed.

Lemma list_installed_single_line_witness :
  list_installed (fun _ => 0%Z) (fun _ _ => 0%Z)
    ("zlib:x64-windows 1.2.11 compression"
     +:+ String "010" "glm:x64-windows 0.9.9 mathematics")
  = Ok {["zlib" := [(X64_WINDOWS_DYNAMIC, "1.2.11")]]}.
Proof.
  rewrite (proj1 (list_installed_single_line (fun _ => 0%Z) (fun _ _ => 0%Z)
                    ("zlib:x64-windows 1.2.11 compression"
                     +:+ String "010" "glm:x64-windows 0.9.9 mathematics")
                    eq_refl)).
  reflexivity.
Defined.

End InstalledMore.

(** ** More on the copy fix-ups *)

Module FixMore.

Import Deps FixFacts.

(** The loop of a fix-up, for any directory, suffix and names: it renames
    what is there, touches nothing but the files it names, and leaves a
    file system on which it does nothing more. *)
Lemma for_each_renames (lib : path) (suffix : string) (names : list string)
    (f : fs) :
  NoDup (touched suffix names) →
  wf f →
  Forall (fun n => f !! (lib ++ [n +:+ suffix]) ≠ Some Dir
                   ∧ f !! (lib ++ [n +:+ ".lib"]) ≠ Some Dir) names →
  ∃ f', for_each (move_lib lib suffix) f names = Ok f'
    ∧ (∀ n, n ∈ names →
         f' !! (lib ++ [n +:+ suffix]) = None
         ∧ f' !! (lib ++ [n +:+ ".lib"])
           = match f !! (lib ++ [n +:+ suffix]) with
             | Some (File c) => Some (File c)
             | _ => f !! (lib ++ [n +:+ ".lib"])
             end)
    ∧ (∀ q : path, (∀ name, q ≠ lib ++ [name]) → f' !! q = f !! q)
    ∧ for_each (move_lib lib suffix) f' names = Ok f'.
Proof.
  intros Hnd Hwf Hkinds. rewrite Forall_forall in Hkinds.
  exists (foldl (rename_if_present lib suffix) f names).
  assert (for_each (move_lib lib suffix) f names
          = Ok (foldl (rename_if_present lib suffix) f names)) as Hrun.
  { apply for_each_steps. apply Forall_forall. intros n [Ho Ht]%Hkinds.
    repeat split; try done. intros [x Hx]. by eapply wf_parent. }
  assert (∀ n, n ∈ names →
            foldl (rename_if_present lib suffix) f names !! (lib ++ [n +:+ suffix]) = None
            ∧ foldl (rename_if_present lib suffix) f names !! (lib ++ [n +:+ ".lib"])
              = match f !! (lib ++ [n +:+ suffix]) with
                | Some (File c) => Some (File c)
                | _ => f !! (lib ++ [n +:+ ".lib"])
                end) as Hren.
  { intros n Hn. apply (steps_renamed lib suffix names Hnd f n Hn).
    by apply Hkinds. }
  split; [done|]. split; [done|]. split.
  - intros q Hq. apply steps_untouched. apply Forall_forall.
    intros n _. split; apply Hq.
  - rewrite for_each_steps.
    + f_equal. apply steps_absent. apply Forall_forall.
      intros n Hn. by apply Hren.
    + apply Forall_forall. intros n Hn.
      destruct (Hren n Hn) as [Ho Ht]. destruct (Hkinds n Hn) as [Hko Hkt].
      repeat split.
      * rewrite Ht. by destruct (f !! (lib ++ [n +:+ suffix])) as [[c|]|].
      * by rewrite Ho.
      * rewrite Ho. by intros [x Hx].
Qed.

Lemma SDL2_names_distinct : NoDup (touched "d.lib" SDL2_lib_names).
Proof. apply (bool_decide_unpack _). by vm_compute. Qed.

(** X14: in a well-formed file system where none of the four paths is a
    directory, [fix_SDL2] raises nothing; [SDL2d.lib] and [SDL2maind.lib],
    when they are there, end up as [SDL2.lib] and [SDL2main.lib] with the
    same content and the old names are gone; a library whose [d.lib] file
    is not there keeps what it has. *)
Theorem fix_SDL2_renames (f : fs) (p : path) :
  wf f →
  Forall (fun n =>
            f !! ((p ++ ["debug"] ++ ["lib"]) ++ [n +:+ "d.lib"]) ≠ Some Dir
            ∧ f !! ((p ++ ["debug"] ++ ["lib"]) ++ [n +:+ ".lib"]) ≠ Some Dir)
         SDL2_lib_names →
  ∃ f', fix_SDL2 f p = Ok f'
    ∧ (∀ n c, n ∈ SDL2_lib_names →
         f !! ((p ++ ["debug"] ++ ["lib"]) ++ [n +:+ "d.lib"]) = Some (File c) →
         f' !! ((p ++ ["debug"] ++ ["lib"]) ++ [n +:+ ".lib"]) = Some (File c)
         ∧ f' !! ((p ++ ["debug"] ++ ["lib"]) ++ [n +:+ "d.lib"]) = None)
    ∧ (∀ n, n ∈ SDL2_lib_names →
         f !! ((p ++ ["debug"] ++ ["lib"]) ++ [n +:+ "d.lib"]) = None →
         f' !! ((p ++ ["debug"] ++ ["lib"]) ++ [n +:+ ".lib"])
         = f !! ((p ++ ["debug"] ++ ["lib"]) ++ [n +:+ ".lib"])
         ∧ f' !! ((p ++ ["debug"] ++ ["lib"]) ++ [n +:+ "d.lib"]) = None).
Proof.
  intros Hwf Hkinds.
  destruct (for_each_renames _ _ _ f SDL2_names_distinct Hwf Hkinds)
    as (f' & Hrun & Hren & _ & _).
  exists f'. split; [exact Hrun|]. split.
  - intros n c Hn Hc. destruct (Hren n Hn) as [Ho Ht]. by rewrite Ho, Ht, Hc.
  - intros n Hn Hc. destruct (Hren n Hn) as [Ho Ht]. by rewrite Ho, Ht, Hc.
Qed.

Lemma fix_SDL2_renames_witness :
  ∃ f', fix_SDL2 Sample.copied_sdl2 ["out"] = Ok f'
    ∧ f' !! ["out"; "debug"; "lib"; "SDL2.lib"] = Some (File "sdl")
    ∧ f' !! ["out"; "debug"; "lib"; "SDL2d.lib"] = None.
Proof.
  destruct (fix_SDL2_renames Sample.copied_sdl2 ["out"])
    as (f' & Hrun & Hthere & _).
  - apply (bool_decide_unpack _). by vm_compute.
  - apply (bool_decide_unpack _). by vm_compute.
  - exists f'. split; [exact Hrun|].
    apply (Hthere "SDL2" "sdl"); [by repeat constructor|reflexivity].
Defined.

(** X15: a fix-up that has been applied does nothing when it is applied
    again: in a well-formed file system where none of the paths of a
    fix-up is a directory, the result of the fix-up is a file system that
    the same fix-up leaves as it is. *)
Theorem fixes_idempotent (f f' : fs) (p : path) :
  wf f →
  (Forall (fun n =>
             f !! ((p ++ ["debug"] ++ ["lib"]) ++ [n +:+ "_Debug.lib"]) ≠ Some Dir
             ∧ f !! ((p ++ ["debug"] ++ ["lib"]) ++ [n +:+ ".lib"]) ≠ Some Dir)
          bullet3_lib_names →
   fix_bullet3 f p = Ok f' → fix_bullet3 f' p = Ok f')
  ∧ (Forall (fun n =>
               f !! ((p ++ ["debug"] ++ ["lib"]) ++ [n +:+ "d.lib"]) ≠ Some Dir
               ∧ f !! ((p ++ ["debug"] ++ ["lib"]) ++ [n +:+ ".lib"]) ≠ Some Dir)
            SDL2_lib_names →
     fix_SDL2 f p = Ok f' → fix_SDL2 f' p = Ok f').
Proof.
  intros Hwf. split; intros Hkinds Hrun.
  - destruct (for_each_renames _ _ _ f bullet3_names_distinct Hwf Hkinds)
      as (f2 & Hrun2 & _ & _ & Hagain).
    unfold fix_bullet3 in *. rewrite Hrun2 in Hrun. by injection Hrun as <-.
  - destruct (for_each_renames _ _ _ f SDL2_names_distinct Hwf Hkinds)
      as (f2 & Hrun2 & _ & _ & Hagain).
    unfold fix_SDL2 in *. rewrite Hrun2 in Hrun. by injection Hrun as <-.
Qed.

Lemma fixes_idempotent_witness :
  ∃ f', fix_bullet3 Sample.copied_bullet3 ["out"] = Ok f'
        ∧ fix_bullet3 f' ["out"] = Ok f'.
Proof.
  destruct (fix_bullet3 Sample.copied_bullet3 ["out"]) as [f'|e] eqn:Hrun.
  - exists f'. split; [done|].
    apply (proj1 (fixes_idempotent Sample.copied_bullet3 f' ["out"]
                    ltac:(apply (bool_decide_unpack _); by vm_compute))).
    + apply (bool_decide_unpack _). by vm_compute.
    + exact Hrun.
  - vm_compute in Hrun. discriminate Hrun.
Defined.

(** X16: a fix-up changes nothing but entries of the [debug/lib]
    directory: every path that is not a name directly in that directory
    has afterwards what it had before. *)
Theorem fixes_frame (f f' : fs) (p : path) (q : path) :
  wf f →
  (∀ name, q ≠ (p ++ ["debug"] ++ ["lib"]) ++ [name]) →
  (Forall (fun n =>
             f !! ((p ++ ["debug"] ++ ["lib"]) ++ [n +:+ "_Debug.lib"]) ≠ Some Dir
             ∧ f !! ((p ++ ["debug"] ++ ["lib"]) ++ [n +:+ ".lib"]) ≠ Some Dir)
          bullet3_lib_names →
   fix_bullet3 f p = Ok f' → f' !! q = f !! q)
  ∧ (Forall (fun n =>
               f !! ((p ++ ["debug"] ++ ["lib"]) ++ [n +:+ "d.lib"]) ≠ Some Dir
               ∧ f !! ((p ++ ["debug"] ++ ["lib"]) ++ [n +:+ ".lib"]) ≠ Some Dir)
            SDL2_lib_names →
     fix_SDL2 f p = Ok f' → f' !! q = f !! q).
Proof.
  intros Hwf Hq. split; intros Hkinds Hrun.
  - destruct (for_each_renames _ _ _ f bullet3_names_distinct Hwf Hkinds)
      as (f2 & Hrun2 & _ & Hframe & _).
    unfold fix_bullet3 in *. rewrite Hrun2 in Hrun. injection Hrun as <-.
    by apply Hframe.
  - destruct (for_each_renames _ _ _ f SDL2_names_distinct Hwf Hkinds)
      as (f2 & Hrun2 & _ & Hframe & _).
    unfold fix_SDL2 in *. rewrite Hrun2 in Hrun. injection Hrun as <-.
    by apply Hframe.
Qed.

Lemma fixes_frame_witness :
  ∃ f', fix_SDL2 Sample.copied_sdl2 ["out"] = Ok f'
        ∧ f' !! ["out"; "debug"] = Some Dir.
Proof.
  destruct (fix_SDL2 Sample.copied_sdl2 ["out"]) as [f'|e] eqn:Hrun.
  - exists f'. split; [done|].
    rewrite (proj2 (fixes_frame Sample.copied_sdl2 f' ["out"] ["out"; "debug"]
                      ltac:(apply (bool_decide_unpack _); by vm_compute)
                      ltac:(done))
               ltac:(apply (bool_decide_unpack _); by vm_compute) Hrun).
    reflexivity.
  - vm_compute in Hrun. discriminate Hrun.
Defined.

End FixMore.

(** ** More on the dependency actions *)

Module MainMore.

Import Main Plan FixFacts.

Section Commands.

Variable exit_code : list string → Z.
Variable vcpkg_path : path.
Variable verb : string.

(** One of the two library commands, by its verb. *)
Variable run : string → Triplet → list (list string) → result (list (list string)).
Hypothesis run_is :
  ∀ lib t log,
    run lib t log
    = subprocess_run exit_code
        [path_str (exe_path vcpkg_path); verb; lib; "--triplet";
         TripletM.to_string t] log.

Lemma each_dep_commands t deps log :
  each_dep run t deps log
  = if all_succeed exit_code (commands vcpkg_path verb [t] deps)
    then Ok (log ++ commands vcpkg_path verb [t] deps)
    else Raise CalledProcessError.
Proof.
  revert log. induction deps as [|d deps IH]; intros log.
  - simpl. by rewrite app_nil_r.
  - simpl. rewrite run_is. unfold subprocess_run.
    unfold commands, all_succeed in *. simpl in *. rewrite app_nil_r in *.
    destruct (exit_code _ =? 0)%Z; [|done]. simpl.
    change (Ok (log ++ [?c]) ≫= ?k) with (k (log ++ [c])).
    rewrite IH. destruct (forallb _ _); [|done].
    by rewrite <- app_assoc.
Qed.

Lemma each_triplet_commands triplets deps log :
  each_triplet run triplets deps log
  = if all_succeed exit_code (commands vcpkg_path verb triplets deps)
    then Ok (log ++ commands vcpkg_path verb triplets deps)
    else Raise CalledProcessError.
Proof.
  revert log. induction triplets as [|t triplets IH]; intros log.
  - simpl. by rewrite app_nil_r.
  - assert (commands vcpkg_path verb (t :: triplets) deps
            = commands vcpkg_path verb [t] deps
              ++ commands vcpkg_path verb triplets deps) as ->.
    { unfold commands. rewrite !bind_cons. simpl. by rewrite app_nil_r. }
    cbn [each_triplet]. rewrite each_dep_commands.
    unfold all_succeed in *. rewrite forallb_app.
    destruct (forallb _ (commands vcpkg_path verb [t] deps)); [|done]. simpl.
    change (Ok ?l ≫= ?k) with (k l). rewrite IH.
    destruct (forallb _ _); [|done]. by rewrite <- app_assoc.
Qed.

End Commands.

(** X17: the build action runs [vcpkg.exe install dep --triplet triplet]
    once for every triplet and dependency, the triplets outermost and the
    dependencies in their order, when all of these commands succeed, and
    raises [CalledProcessError] when one of them fails; the rmbuild action
    does the same with [remove]. *)
Theorem deps_build_commands (exit_code : list string → Z) (vcpkg_path : path)
    (o : Cli.options) :
  deps_build exit_code vcpkg_path o
  = (if all_succeed exit_code
          (commands vcpkg_path "install" (Cli.triplets_of o)
             (Cli.iter (Cli.resolve_what (Cli.what o))))
     then Ok (commands vcpkg_path "install" (Cli.triplets_of o)
                (Cli.iter (Cli.resolve_what (Cli.what o))))
     else Raise CalledProcessError)
  ∧ deps_rmbuild exit_code vcpkg_path o
    = (if all_succeed exit_code
            (commands vcpkg_path "remove" (Cli.triplets_of o)
               (Cli.iter (Cli.resolve_what (Cli.what o))))
       then Ok (commands vcpkg_path "remove" (Cli.triplets_of o)
                  (Cli.iter (Cli.resolve_what (Cli.what o))))
       else Raise CalledProcessError).
Proof.
  split.
  - unfold deps_build.
    by rewrite (each_triplet_commands exit_code vcpkg_path "install"
                  (install_library exit_code vcpkg_path)).
  - unfold deps_rmbuild.
    by rewrite (each_triplet_commands exit_code vcpkg_path "remove"
                  (remove_library exit_code vcpkg_path)).
Qed.

Lemma sibling_prefix (p : path) a b (q : path) :
  (p ++ [a]) `prefix_of` (p ++ [b]) → a = b.
Proof.
  intros Hpre. apply prefix_length_eq in Hpre.
  - by apply join_inj in Hpre.
  - rewrite !length_app. simpl. lia.
Qed.

Lemma rmtree_lookup (f : fs) (d q : path) :
  rmtree_ignore_errors f d !! q
  = if decide (f !! d = Some Dir ∧ d `prefix_of` q) then None else f !! q.
Proof.
  unfold rmtree_ignore_errors. destruct (f !! d) as [[c|]|] eqn:Hd.
  - by destruct (decide _) as [[? _]|].
  - destruct (decide _) as [[_ Hpre]|Hno].
    + apply map_lookup_filter_None. right. intros x _ Hx. by apply Hx.
    + destruct (f !! q) as [x|] eqn:Hq.
      * apply map_lookup_filter_Some. split; [done|]. simpl. tauto.
      * apply map_lookup_filter_None. by left.
  - by destruct (decide _) as [[? _]|].
Qed.

(** X19: the rmcopy action removes, for every requested triplet whose
    output directory is a directory, that directory and all that lies
    below it, and nothing else: every other path keeps what it has; a
    triplet whose output directory is missing or is a file changes
    nothing. *)
Theorem deps_rmcopy_removes (output_path : path) (o : Cli.options) (f : fs)
    (q : path) :
  (Exists (fun d => f !! d = Some Dir ∧ d `prefix_of` q)
          (destinations output_path (Cli.triplets_of o)) →
   deps_rmcopy output_path o f !! q = None)
  ∧ (¬ Exists (fun d => f !! d = Some Dir ∧ d `prefix_of` q)
              (destinations output_path (Cli.triplets_of o)) →
     deps_rmcopy output_path o f !! q = f !! q).
Proof.
  unfold deps_rmcopy, destinations.
  generalize (Cli.triplets_of o) as ts. intros ts. revert f.
  induction ts as [|t ts IH]; intros f.
  { split; [by intros H%Exists_nil|done]. }
  simpl. set (d := output_path ++ [TripletM.to_string t]).
  destruct (IH (rmtree_ignore_errors f d)) as [IHin IHout].
  assert (¬ (f !! d = Some Dir ∧ d `prefix_of` q) →
          Exists (fun d' => rmtree_ignore_errors f d !! d' = Some Dir
                           ∧ d' `prefix_of` q)
                 ((fun t => output_path ++ [TripletM.to_string t]) <$> ts)
          ↔ Exists (fun d' => f !! d' = Some Dir ∧ d' `prefix_of` q)
                   ((fun t => output_path ++ [TripletM.to_string t]) <$> ts))
    as Hsame.
  { intros Hno. rewrite !Exists_exists. split.
    - intros (d' & Hin & Hd' & Hpre). exists d'. split; [done|]. split; [|done].
      rewrite rmtree_lookup in Hd'. by destruct (decide _).
    - intros (d' & Hin & Hd' & Hpre). exists d'. split; [done|]. split; [|done].
      rewrite rmtree_lookup. destruct (decide _) as [[Hd Hdd]|]; [|done].
      apply list_elem_of_fmap in Hin as (t' & -> & _).
      apply (sibling_prefix _ _ _ q) in Hdd. exfalso. apply Hno.
      unfold d. by rewrite Hdd. }
  destruct (decide (f !! d = Some Dir ∧ d `prefix_of` q)) as [Hd|Hno].
  - assert (rmtree_ignore_errors f d !! q = None) as Hq.
    { rewrite rmtree_lookup. by destruct (decide _). }
    split.
    + intros _.
      destruct (decide (Exists (fun d' => rmtree_ignore_errors f d !! d' = Some Dir
                                          ∧ d' `prefix_of` q)
                          ((fun t => output_path ++ [TripletM.to_string t]) <$> ts)))
        as [Hex|Hex]; [by apply IHin|].
      by rewrite (IHout Hex).
    + intros Hnot. exfalso. apply Hnot. by apply Exists_cons_hd.
  - assert (rmtree_ignore_errors f d !! q = f !! q) as Hq.
    { rewrite rmtree_lookup. by destruct (decide _). }
    split.
    + intros [Hhd|Htl]%Exists_cons; [done|].
      apply IHin. by apply Hsame.
    + intros Hnot. rewrite IHout; [done|].
      intros Hex%Hsame; [|done]. apply Hnot. by apply Exists_cons_tl.
Qed.

Lemma deps_rmcopy_removes_witness :
  deps_rmcopy ["out"]
    (Cli.mkOptions (Cli.AList []) (Cli.AList ["x86"]) (Cli.AList ["windows"])
       (Cli.AList ["dynamic"]))
    Sample.copied_two !! ["out"; "x86-windows"; "include"; "glm.hpp"] = None
  ∧ deps_rmcopy ["out"]
      (Cli.mkOptions (Cli.AList []) (Cli.AList ["x86"]) (Cli.AList ["windows"])
         (Cli.AList ["dynamic"]))
      Sample.copied_two !! ["out"; "x86-windows-static"; "lib.a"]
    = Some (File "ar").
Proof.
  split.
  - apply (deps_rmcopy_removes ["out"] _ Sample.copied_two).
    apply (bool_decide_unpack _). by vm_compute.
  - rewrite (proj2 (deps_rmcopy_removes ["out"] _ Sample.copied_two
                      ["out"; "x86-windows-static"; "lib.a"])).
    + reflexivity.
    + apply (bool_decide_unpack _). by vm_compute.
Defined.

(** X18: what is missing at copy time is fatal: when the output directory
    does not exist the copy action raises [FileNotFoundError]; when the
    destination is or can be made a directory but the staged package
    directory of the first dependency is not a directory, it raises the
    [DistutilsFileError] of [copy_tree]. *)
Theorem copy_triplet_fatal (vcpkg_path output_path : path) (dep : string)
    (deps : list string) (f : fs) (t : Triplet) :
  (f !! (output_path ++ [TripletM.to_string t]) = None →
   f !! output_path = None →
   copy_triplet vcpkg_path output_path (dep :: deps) f t
   = Raise FileNotFoundError)
  ∧ (f !! (output_path ++ [TripletM.to_string t]) = Some Dir
     ∨ (f !! (output_path ++ [TripletM.to_string t]) = None
        ∧ f !! output_path = Some Dir) →
     (vcpkg_path ++ ["packages"]) ++ [dep +:+ "_" +:+ TripletM.to_string t]
     ≠ output_path ++ [TripletM.to_string t] →
     f !! ((vcpkg_path ++ ["packages"]) ++ [dep +:+ "_" +:+ TripletM.to_string t])
     ≠ Some Dir →
     copy_triplet vcpkg_path output_path (dep :: deps) f t
     = Raise DistutilsFileError).
Proof.
  unfold copy_triplet, copy_staged, mkdir_exist_ok. split.
  - intros Hdst Hout. by rewrite Hdst, parent_join, Hout.
  - intros Hdst Hne Hpack.
    assert (∀ f1 : fs,
              f1 !! ((vcpkg_path ++ ["packages"])
                     ++ [dep +:+ "_" +:+ TripletM.to_string t]) ≠ Some Dir →
              copy_dep (vcpkg_path ++ ["packages"])
                (output_path ++ [TripletM.to_string t]) t f1 dep
              = Raise DistutilsFileError) as Hdep.
    { intros f1 Hf1. unfold copy_dep, copy_tree.
      by destruct (f1 !! _) as [[c|]|]. }
    destruct Hdst as [Hdst|[Hdst Hout]].
    + rewrite Hdst. simpl.
      change (Ok f ≫= ?k) with (k f). simpl. by rewrite (Hdep f Hpack).
    + rewrite Hdst, parent_join, Hout.
      change (Ok ?x ≫= ?k) with (k x). simpl. rewrite Hdep; [done|].
      by rewrite lookup_insert_ne.
Qed.

Lemma copy_triplet_fatal_witness :
  copy_triplet ["vc"] ["out"] ["bullet3"; "glm"] Sample.staged X86_WINDOWS_DYNAMIC
  = Raise DistutilsFileError
  ∧ copy_triplet ["vc"] ["nowhere"] ["glm"] Sample.staged X86_WINDOWS_DYNAMIC
    = Raise FileNotFoundError.
Proof.
  split.
  - apply (copy_triplet_fatal ["vc"] ["out"] "bullet3" ["glm"] Sample.staged
             X86_WINDOWS_DYNAMIC).
    + right. split; reflexivity.
    + done.
    + by vm_compute.
  - apply (copy_triplet_fatal ["vc"] ["nowhere"] "glm" [] Sample.staged
             X86_WINDOWS_DYNAMIC); reflexivity.
Defined.

End MainMore.

(** ** The vcpkg administration *)

Module AdminFacts.

Import Admin.

Lemma run_started proc cmd cwd w w' :
  run proc cmd cwd w = Ok w' → started w' = started w ++ [(cmd, cwd)].
Proof.
  unfold run. destruct (proc cmd cwd (files w)) as [f|e]; [|done].
  by intros [= <-].
Qed.

Lemma run_all_started proc cmds cwd w w' :
  run_all proc cmds cwd w = Ok w' →
  started w' = started w ++ ((fun cmd => (cmd, cwd)) <$> cmds).
Proof.
  revert w. induction cmds as [|cmd cmds IH]; intros w; simpl.
  - intros [= <-]. by rewrite app_nil_r.
  - destruct (run proc cmd cwd w) as [w1|e] eqn:Hrun; [|done].
    intros Hrest%IH. apply run_started in Hrun.
    by rewrite Hrest, Hrun, <- app_assoc.
Qed.

(** X20: [build_vcpkg] starts nothing when the vcpkg directory and the
    executable are there. In general it succeeds exactly as follows: the
    clone is started, in the output directory, exactly when the vcpkg
    directory is missing; then the bootstrap script is started, in the
    vcpkg directory, exactly when the executable is missing in the file
    system that the clone has left (the one at hand when there was no
    clone); nothing else is started, and the file system at the end is
    the one that the last of these has left. *)
Theorem build_vcpkg_starts (proc : list string → path → fs → result fs)
    (vcpkg_path output_path : path) (w : world) :
  (path_exists (files w) vcpkg_path = true →
   path_exists (files w) (Main.exe_path vcpkg_path) = true →
   build_vcpkg proc vcpkg_path output_path w = Ok w)
  ∧ (∀ w', build_vcpkg proc vcpkg_path output_path w = Ok w'
       ↔ ∃ f1 : fs,
           (if path_exists (files w) vcpkg_path then f1 = files w
            else proc (clone_cmd vcpkg_path) output_path (files w) = Ok f1)
           ∧ (if path_exists f1 (Main.exe_path vcpkg_path) then files w' = f1
              else proc (bootstrap_cmd vcpkg_path) vcpkg_path f1 = Ok (files w'))
           ∧ started w'
             = started w
               ++ (if path_exists (files w) vcpkg_path then []
                   else [(clone_cmd vcpkg_path, output_path)])
               ++ (if path_exists f1 (Main.exe_path vcpkg_path) then []
                   else [(bootstrap_cmd vcpkg_path, vcpkg_path)])).
Proof.
  unfold build_vcpkg. split.
  - intros -> Hexe. simpl. change (Ok w ≫= ?k) with (k w). simpl.
    by rewrite Hexe.
  - intros [f' l']. destruct w as [f l]. unfold run. simpl.
    destruct (path_exists f vcpkg_path) eqn:Hdir; simpl.
    + change (Ok ?x ≫= ?k) with (k x). simpl. split.
      * destruct (path_exists f (Main.exe_path vcpkg_path)) eqn:Hexe; simpl.
        -- intros [= <- <-]. exists f. rewrite Hexe.
           split; [done|]. split; [done|]. simpl. by rewrite ?app_nil_r.
        -- destruct (proc (bootstrap_cmd vcpkg_path) vcpkg_path f) as [f2|e] eqn:Hb;
             [|done].
           intros [= <- <-]. exists f. rewrite Hexe. by rewrite Hb.
      * intros (f1 & -> & Hboot & Hstarted).
        destruct (path_exists f (Main.exe_path vcpkg_path)); simpl.
        -- simpl in Hstarted. rewrite ?app_nil_r in Hstarted. by rewrite Hboot, Hstarted.
        -- rewrite Hboot. simpl in *. by rewrite Hstarted.
    + split.
      * destruct (proc (clone_cmd vcpkg_path) output_path f) as [f1|e] eqn:Hc;
          [|done].
        change (Ok ?x ≫= ?k) with (k x). simpl.
        destruct (path_exists f1 (Main.exe_path vcpkg_path)) eqn:Hexe; simpl.
        -- intros [= <- <-]. exists f1. rewrite Hexe.
           split; [done|]. split; [done|]. simpl. by rewrite ?app_nil_r.
        -- destruct (proc (bootstrap_cmd vcpkg_path) vcpkg_path f1) as [f2|e] eqn:Hb;
             [|done].
           intros [= <- <-]. exists f1. rewrite Hexe, Hb.
           split; [done|]. split; [done|]. simpl. by rewrite <- ?app_assoc.
      * intros (f1 & -> & Hboot & Hstarted).
        change (Ok ?x ≫= ?k) with (k x). simpl.
        destruct (path_exists f1 (Main.exe_path vcpkg_path)); simpl.
        -- simpl in Hstarted. rewrite ?app_nil_r in Hstarted. by rewrite Hboot, Hstarted.
        -- rewrite Hboot. simpl in *. rewrite Hstarted. by rewrite <- ?app_assoc.
Qed.

Lemma build_vcpkg_starts_witness :
  build_vcpkg Sample.proc_idle ["vc"] ["out"] (mkWorld Sample.bootstrapped [])
  = Ok (mkWorld Sample.bootstrapped [])
  ∧ build_vcpkg Sample.proc_clone_bare ["vc"] ["out"] (mkWorld Sample.fresh [])
    = Ok (mkWorld
            (<[["vc"; "vcpkg.exe"] := File "MZ"]> (<[["vc"] := Dir]> Sample.fresh))
            [(clone_cmd ["vc"], ["out"]); (bootstrap_cmd ["vc"], ["vc"])])
  ∧ build_vcpkg Sample.proc_clone_full ["vc"] ["out"] (mkWorld Sample.fresh [])
    = Ok (mkWorld
            (<[["vc"; "vcpkg.exe"] := File "MZ"]> (<[["vc"] := Dir]> Sample.fresh))
            [(clone_cmd ["vc"], ["out"])]).
Proof.
  split; [|split].
  - apply (proj1 (build_vcpkg_starts Sample.proc_idle ["vc"] ["out"]
                    (mkWorld Sample.bootstrapped []))); by vm_compute.
  - apply (proj2 (build_vcpkg_starts Sample.proc_clone_bare ["vc"] ["out"]
                    (mkWorld Sample.fresh []))).
    exists (<[["vc"] := Dir]> Sample.fresh).
    split; [by vm_compute|]. split; by vm_compute.
  - apply (proj2 (build_vcpkg_starts Sample.proc_clone_full ["vc"] ["out"]
                    (mkWorld Sample.fresh []))).
    exists (<[["vc"; "vcpkg.exe"] := File "MZ"]> (<[["vc"] := Dir]> Sample.fresh)).
    split; [by vm_compute|]. split; by vm_compute.
Defined.

(** X21: a successful [update_vcpkg] starts what [build_vcpkg] starts and
    then, in the vcpkg directory and in this order, the fetch, the hard
    reset, the checkout of master, the merge of origin/master and the
    bootstrap script; when [build_vcpkg] raises, [update_vcpkg] raises the
    same and starts none of the five. *)
Theorem update_vcpkg_starts (proc : list string → path → fs → result fs)
    (vcpkg_path output_path : path) (w : world) :
  (∀ w', update_vcpkg proc vcpkg_path output_path w = Ok w' →
     ∃ w1, build_vcpkg proc vcpkg_path output_path w = Ok w1
           ∧ started w'
             = started w1
               ++ [(["git"; "fetch"; "origin"], vcpkg_path);
                   (["git"; "reset"; "--hard"; "HEAD"], vcpkg_path);
                   (["git"; "checkout"; "master"], vcpkg_path);
                   (["git"; "merge"; "origin/master"], vcpkg_path);
                   (bootstrap_cmd vcpkg_path, vcpkg_path)])
  ∧ (∀ e, build_vcpkg proc vcpkg_path output_path w = Raise e →
          update_vcpkg proc vcpkg_path output_path w = Raise e).
Proof.
  unfold update_vcpkg. split.
  - intros w'.
    destruct (build_vcpkg proc vcpkg_path output_path w) as [w1|e]; [|done].
    change (Ok w1 ≫= ?k) with (k w1). cbv beta.
    intros Hall%run_all_started. exists w1. split; [done|exact Hall].
  - by intros e ->.
Qed.

Lemma update_vcpkg_starts_witness :
  ∃ w', update_vcpkg Sample.proc_idle ["vc"] ["out"]
          (mkWorld Sample.bootstrapped []) = Ok w'
        ∧ length (started w') = 5%nat.
Proof.
  destruct (update_vcpkg Sample.proc_idle ["vc"] ["out"]
              (mkWorld Sample.bootstrapped [])) as [w'|e] eqn:Hrun.
  - exists w'. split; [done|].
    destruct (proj1 (update_vcpkg_starts Sample.proc_idle ["vc"] ["out"]
                       (mkWorld Sample.bootstrapped [])) w' Hrun)
      as (w1 & Hbuild & ->).
    vm_compute in Hbuild. by injection Hbuild as <-.
  - vm_compute in Hrun. discriminate Hrun.
Defined.

End AdminFacts.
